(** * Matrix (eqs/matrix.py): a shallow embedding and its specification

    The Python class [Matrix] keeps its numbers in a list of lists. Lists
    and matrices are heap objects with an identity, methods mutate them in
    place and report failures by raising exceptions. The embedding keeps
    all three: a heap of objects addressed by locations, a state-and-error
    monad over that heap, and Python's list indexing (with its negative
    indices and its [IndexError]). *)

From stdpp Require Import base tactics strings numbers option list.

Local Open Scope Z_scope.

(** ** Python list indexing *)

(** [xs[i]] accepts [0 <= i < len(xs)] and, counting from the end,
    [-len(xs) <= i < 0]; everything else is an [IndexError]. *)
Definition py_index (len : nat) (i : Z) : option nat :=
  if decide (0 ≤ i < Z.of_nat len) then Some (Z.to_nat i)
  else if decide (- Z.of_nat len ≤ i < 0) then Some (Z.to_nat (Z.of_nat len + i))
  else None.

Definition py_getitem {A} (xs : list A) (i : Z) : option A :=
  k ← py_index (length xs) i; xs !! k.

Definition py_setitem {A} (xs : list A) (i : Z) (x : A) : option (list A) :=
  k ← py_index (length xs) i; Some (<[k:=x]> xs).

(** [range(n)] *)
Definition range (n : Z) : list Z := seqZ 0 n.

(** ** Objects, heap, exceptions *)

(** Locations are positions in the heap. *)
Abbreviation loc := nat (only parsing).

Inductive exn :=
| IndexError
| ValueError (msg : string)
| TypeError
| AttributeError.

(** The attributes of a [Matrix] instance: [__rows_count], [__cols_count],
    [__is_square] and [__data]. [__data] is the outer list; its items are
    references to the row lists, which live on the heap. The outer list is
    created in [__init__], never handed out and never written to, so it is
    kept inside the instance. *)
Record matrix := Build_matrix {
  rows_count : Z;
  cols_count : Z;
  is_square : bool;
  data : list loc
}.

Inductive outcome (A : Type) :=
| Return (a : A)
| Raise (e : exn).
Arguments Return {A} a.
Arguments Raise {A} e.

Section Mechanics.

Set Default Proof Using "Type".

(** The numbers stored in a matrix (Python [int] and [float] values), with
    the literals [0] and [1] and the operators [+] and [*] the class uses.
    Nothing is assumed about them: no theorem below relies on an algebraic
    law. *)
Context {num : Type}.
Variables (zero one : num) (add mul : num → num → num).

(** [geom2d.are_close_enough], the tolerance comparison used by [__eq__]. *)
Variable are_close_enough : num → num → bool.

Inductive obj :=
| OList (items : list num)
| OVector (items : list num)
| OMatrix (m : matrix).

(** A Python value as the operators [*], [+] and [==] may receive it as
    their right-hand operand: [None], the [NotImplemented] singleton (which
    the operator protocol reads as a refusal when a method returns it), a
    number, or a reference to a heap object. *)
Inductive value :=
| VNone
| VNotImplemented
| VNum (x : num)
| VRef (l : loc).

Abbreviation heap := (list obj) (only parsing).

(** Computations read and write the heap and either return or raise; the
    heap reached when an exception is raised is kept. *)
Definition M (A : Type) : Type := heap → outcome A * heap.

Definition ret {A} (a : A) : M A := λ h, (Return a, h).
Definition raise {A} (e : exn) : M A := λ h, (Raise e, h).
Definition bind {A B} (c : M A) (f : A → M B) : M B :=
  λ h, match c h with
       | (Return a, h') => f a h'
       | (Raise e, h') => (Raise e, h')
       end.

Notation "x <- c ;; k" := (bind c (λ x, k))
  (at level 100, c at next level, right associativity, only parsing).
Notation "c ;;; k" := (bind c (λ _, k))
  (at level 100, right associativity, only parsing).

Definition alloc (o : obj) : M loc := λ h, (Return (length h), h ++ [o]).

(** [for x in xs: body] *)
Fixpoint for_each {A} (xs : list A) (body : A → M unit) : M unit :=
  match xs with
  | [] => ret ()
  | x :: xs' => body x ;;; for_each xs' body
  end.

(** A [for] loop that updates a local variable. *)
Fixpoint for_fold {A St} (xs : list A) (s : St) (body : A → St → M St) : M St :=
  match xs with
  | [] => ret s
  | x :: xs' => s' <- body x s ;; for_fold xs' s' body
  end.

(** A [for] loop whose body may [return]: [Some r] leaves the loop (and
    the enclosing loops) with [r]. *)
Fixpoint for_return {A R} (xs : list A) (body : A → M (option R)) : M (option R) :=
  match xs with
  | [] => ret None
  | x :: xs' =>
      r <- body x ;;
      match r with
      | Some v => ret (Some v)
      | None => for_return xs' body
      end
  end.

(** *** Row lists *)

Definition list_getitem (l : loc) (i : Z) : M num :=
  λ h, match h !! l with
       | Some (OList xs) =>
           match py_getitem xs i with
           | Some x => (Return x, h)
           | None => (Raise IndexError, h)
           end
       | _ => (Raise TypeError, h)
       end.

Definition list_setitem (l : loc) (i : Z) (x : num) : M unit :=
  λ h, match h !! l with
       | Some (OList xs) =>
           match py_setitem xs i x with
           | Some xs' => (Return (), <[l:=OList xs']> h)
           | None => (Raise IndexError, h)
           end
       | _ => (Raise TypeError, h)
       end.

(** Modelled from the spec: [utils.lists.list_of_list_of_zeros] is not part
    of the sources. The spec says that construction "allocates a
    zero-filled rows x cols grid" whose store "always has exactly
    rows_count rows each of exactly cols_count values": one fresh list of
    [cols] zeros per row. *)
Definition list_of_zeros (length : Z) : M loc :=
  alloc (OList (replicate (Z.to_nat length) zero)).

Fixpoint list_of_list_of_zeros_loop (rows : nat) (cols : Z) : M (list loc) :=
  match rows with
  | O => ret []
  | S n =>
      r <- list_of_zeros cols ;;
      rs <- list_of_list_of_zeros_loop n cols ;;
      ret (r :: rs)
  end.

Definition list_of_list_of_zeros (rows cols : Z) : M (list loc) :=
  list_of_list_of_zeros_loop (Z.to_nat rows) cols.

(** *** Vector *)

(** Modelled from the spec: the class [eqs.Vector] is not part of the
    sources. The spec gives it "a length" and "getting/setting a value at
    an index"; [Vector(n)] is the result type of [times_vector], filled
    like a matrix with zeros. Its length is the length of its items. *)
Definition Vector_init (length : Z) : M loc :=
  alloc (OVector (replicate (Z.to_nat length) zero)).

Definition vector_length (v : loc) : M Z :=
  λ h, match h !! v with
       | Some (OVector xs) => (Return (Z.of_nat (length xs)), h)
       | _ => (Raise AttributeError, h)
       end.

Definition vector_value_at (v : loc) (index : Z) : M num :=
  λ h, match h !! v with
       | Some (OVector xs) =>
           match py_getitem xs index with
           | Some x => (Return x, h)
           | None => (Raise IndexError, h)
           end
       | _ => (Raise AttributeError, h)
       end.

Definition vector_set_value (v : loc) (x : num) (index : Z) : M loc :=
  λ h, match h !! v with
       | Some (OVector xs) =>
           match py_setitem xs index x with
           | Some xs' => (Return v, <[v:=OVector xs']> h)
           | None => (Raise IndexError, h)
           end
       | _ => (Raise AttributeError, h)
       end.

(** *** Matrix *)

(** Reading the private attributes of an instance. Python looks an
    attribute up on every use; so does the model. *)
Definition get_matrix (self : loc) : M matrix :=
  λ h, match h !! self with
       | Some (OMatrix m) => (Return m, h)
       | _ => (Raise AttributeError, h)
       end.

(** [other.__rows_count], [other.__data], ... on an arbitrary operand. *)
Definition get_matrix_of (other : value) : M matrix :=
  match other with
  | VRef l => get_matrix l
  | _ => raise AttributeError
  end.

Definition get_rows_count (self : loc) : M Z :=
  m <- get_matrix self ;; ret (rows_count m).

Definition get_cols_count (self : loc) : M Z :=
  m <- get_matrix self ;; ret (cols_count m).

Definition get_is_square (self : loc) : M bool :=
  m <- get_matrix self ;; ret (is_square m).

(** [other.__data[row]] and [self.__data[row]] *)
Definition data_row_of (other : value) (row : Z) : M loc :=
  m <- get_matrix_of other ;;
  match py_getitem (data m) row with
  | Some r => ret r
  | None => raise IndexError
  end.

Definition data_row (self : loc) (row : Z) : M loc :=
  data_row_of (VRef self) row.

(** [self is other] *)
Definition is_same (self : loc) (other : value) : bool :=
  match other with
  | VRef l => bool_decide (l = self)
  | _ => false
  end.

(** [isinstance(other, Matrix)] *)
Definition isinstance_Matrix (other : value) : M bool :=
  λ h, match other with
       | VRef l => match h !! l with
                   | Some (OMatrix _) => (Return true, h)
                   | _ => (Return false, h)
                   end
       | _ => (Return false, h)
       end.

(** [__init__] *)
Definition Matrix_init (rows_count cols_count : Z) : M loc :=
  d <- list_of_list_of_zeros rows_count cols_count ;;
  alloc (OMatrix {| rows_count := rows_count;
                    cols_count := cols_count;
                    is_square := bool_decide (rows_count = cols_count);
                    data := d |}).

Definition set_value (self : loc) (value : num) (row col : Z) : M loc :=
  r <- data_row self row ;;
  list_setitem r col value ;;;
  ret self.

Definition add_to_value (self : loc) (amount : num) (row col : Z) : M loc :=
  r <- data_row self row ;;
  x <- list_getitem r col ;;
  list_setitem r col (add x amount) ;;;
  ret self.

Definition set_data (self : loc) (data : list num) : M loc :=
  cols <- get_cols_count self ;;
  rows <- get_rows_count self ;;
  if decide (Z.of_nat (length data) ≠ cols * rows)
  then raise (ValueError "Cannot set data: size mismatch")
  else
    rows <- get_rows_count self ;;
    for_each (range rows) (λ row,
      cols <- get_cols_count self ;;
      let offset := cols * row in
      cols <- get_cols_count self ;;
      for_each (range cols) (λ col,
        match py_getitem data (offset + col) with
        | Some x => r <- data_row self row ;; list_setitem r col x
        | None => raise IndexError
        end)) ;;;
    ret self.

Definition set_identity_row (self : loc) (row : Z) : M loc :=
  cols <- get_cols_count self ;;
  for_each (range cols) (λ col,
    r <- data_row self row ;;
    list_setitem r col (if decide (row = col) then one else zero)) ;;;
  ret self.

Definition set_identity_col (self : loc) (col : Z) : M loc :=
  rows <- get_rows_count self ;;
  for_each (range rows) (λ row,
    r <- data_row self row ;;
    list_setitem r col (if decide (row = col) then one else zero)) ;;;
  ret self.

Definition value_at (self : loc) (row col : Z) : M num :=
  r <- data_row self row ;;
  list_getitem r col.

Definition value_transposed_at (self : loc) (row col : Z) : M num :=
  r <- data_row self col ;;
  list_getitem r row.

Definition scale (self : loc) (factor : num) : M loc :=
  rows <- get_rows_count self ;;
  for_each (range rows) (λ i,
    cols <- get_cols_count self ;;
    for_each (range cols) (λ j,
      r <- data_row self i ;;
      x <- list_getitem r j ;;
      list_setitem r j (mul x factor))) ;;;
  ret self.

Definition times_vector (self : loc) (v : loc) : M loc :=
  cols <- get_cols_count self ;;
  n <- vector_length v ;;
  if decide (cols ≠ n)
  then raise (ValueError "Size mismatch")
  else
    rows <- get_rows_count self ;;
    result <- Vector_init rows ;;
    rows <- get_rows_count self ;;
    for_each (range rows) (λ i,
      cols <- get_cols_count self ;;
      product_sum <- for_fold (range cols) zero (λ j product_sum,
        r <- data_row self i ;;
        a <- list_getitem r j ;;
        b <- vector_value_at v j ;;
        ret (add product_sum (mul a b))) ;;
      vector_set_value result product_sum i ;;;
      ret ()) ;;;
    ret result.

Definition copy (self : loc) : M loc :=
  rows <- get_rows_count self ;;
  cols <- get_cols_count self ;;
  matrix <- Matrix_init rows cols ;;
  rows <- get_rows_count self ;;
  for_each (range rows) (λ i,
    cols <- get_cols_count self ;;
    for_each (range cols) (λ j,
      r <- data_row self i ;;
      x <- list_getitem r j ;;
      r' <- data_row matrix i ;;
      list_setitem r' j x)) ;;;
  ret matrix.

(** [__add__]. An operand that is not a [Matrix] has no attribute
    [_Matrix__rows_count]. *)
Definition Matrix_add (self : loc) (other : value) : M loc :=
  rows <- get_rows_count self ;;
  o <- get_matrix_of other ;;
  if decide (rows ≠ rows_count o)
  then raise (ValueError "Size mismatch")
  else
    cols <- get_cols_count self ;;
    o <- get_matrix_of other ;;
    if decide (cols ≠ cols_count o)
    then raise (ValueError "Size mismatch")
    else
      result <- copy self ;;
      rows <- get_rows_count self ;;
      for_each (range rows) (λ i,
        cols <- get_cols_count self ;;
        for_each (range cols) (λ j,
          r <- data_row result i ;;
          x <- list_getitem r j ;;
          r' <- data_row_of other i ;;
          y <- list_getitem r' j ;;
          list_setitem r j (add x y))) ;;;
      ret result.

(** [__mul__], the method. *)
Definition Matrix_mul (self : loc) (other : value) : M value :=
  ret other.

(** [self * other], the operator. Python calls [__mul__] and takes what it
    returns as the result of [*], unless that is [NotImplemented]: then it
    turns to the right operand's [__rmul__] and, failing that, raises
    [TypeError]. [__mul__] returns [NotImplemented] only when [other] is
    [NotImplemented] itself, whose type defines no [__rmul__]. (The class
    has no subclass, so no reflected method takes precedence.) *)
Definition Matrix_times (self : loc) (other : value) : M value :=
  r <- Matrix_mul self other ;;
  match r with
  | VNotImplemented => raise TypeError
  | _ => ret r
  end.

(** [__eq__] *)
Definition Matrix_eq (self : loc) (other : value) : M bool :=
  if is_same self other then ret true
  else
    is_matrix <- isinstance_Matrix other ;;
    if negb is_matrix then ret false
    else
      rows <- get_rows_count self ;;
      o <- get_matrix_of other ;;
      if decide (rows ≠ rows_count o) then ret false
      else
        cols <- get_cols_count self ;;
        o <- get_matrix_of other ;;
        if decide (cols ≠ cols_count o) then ret false
        else
          rows <- get_rows_count self ;;
          found <- for_return (range rows) (λ i,
            cols <- get_cols_count self ;;
            for_return (range cols) (λ j,
              r <- data_row self i ;;
              x <- list_getitem r j ;;
              r' <- data_row_of other i ;;
              y <- list_getitem r' j ;;
              if negb (are_close_enough x y) then ret (Some false)
              else ret None)) ;;
          match found with
          | Some b => ret b
          | None => ret true
          end.

(** ** Specification vocabulary *)

(** [wp c Q h]: running [c] from [h] ends (by returning or by raising) in
    an outcome and a heap that satisfy [Q]. Computations are total
    functions, so this is total correctness. *)
Definition wp {A} (c : M A) (Q : outcome A → heap → Prop) (h : heap) : Prop :=
  Q (c h).1 (c h).2.

(** Objects keep their kind, lists and vectors keep their length, and the
    attributes of a matrix are never reassigned. *)
Definition obj_le (o o' : obj) : Prop :=
  match o, o' with
  | OList xs, OList ys => length xs = length ys
  | OVector xs, OVector ys => length xs = length ys
  | OMatrix m, OMatrix m' => m = m'
  | _, _ => False
  end.

(** [writes W h h']: from [h] to [h'] only the objects at locations in [W]
    may have changed, and those kept their shape; [h'] may hold new
    objects. *)
Definition writes (W : loc → Prop) (h h' : heap) : Prop :=
  ∀ l o, h !! l = Some o →
    ∃ o', h' !! l = Some o' ∧ obj_le o o' ∧ (¬ W l → o' = o).

Definition is_row (h : heap) (n : nat) (r : loc) : Prop :=
  ∃ xs, h !! r = Some (OList xs) ∧ length xs = n.

(** What [__init__] establishes and every method keeps: [self] is a matrix
    with [rows_count] rows, the rows are distinct list objects and each
    has [cols_count] items. *)
Record matrix_inv (h : heap) (self : loc) (m : matrix) : Prop := {
  inv_self : h !! self = Some (OMatrix m);
  inv_rows_count : rows_count m = Z.of_nat (length (data m));
  inv_cols_count : 0 ≤ cols_count m;
  inv_square : is_square m = bool_decide (rows_count m = cols_count m);
  inv_nodup : NoDup (data m);
  inv_rows : Forall (is_row h (Z.to_nat (cols_count m))) (data m)
}.

(** The item at row [i], column [j] (counted from 0) of the matrix at
    [self], read off the heap. *)
Definition cell (h : heap) (self : loc) (i j : nat) : option num :=
  match h !! self with
  | Some (OMatrix m) =>
      match data m !! i with
      | Some r =>
          match h !! r with
          | Some (OList xs) => xs !! j
          | _ => None
          end
      | None => None
      end
  | _ => None
  end.

(** The heap after [r[j] = x] for a row list [r] and [j] in range. *)
Definition store_item (h : heap) (r : loc) (j : nat) (x : num) : heap :=
  match h !! r with
  | Some (OList xs) => <[r:=OList (<[j:=x]> xs)]> h
  | _ => h
  end.

(** [set_data], [scale], [copy] and [__add__] all run
    [for i in range(rows): for j in range(cols): t[i][j] = ...] over a
    target matrix [t]. [processed k j] are the cells written when the loops
    stand at row [k], column [j]. *)
Definition processed (k j i' j' : nat) : Prop :=
  (i' < k)%nat ∨ (i' = k ∧ (j' < j)%nat).

Record fill_inv (t : loc) (mt : matrix) (F : nat → nat → option num)
    (h0 : heap) (k j : nat) (h1 : heap) : Prop := {
  fill_matrix : matrix_inv h1 t mt;
  fill_writes : writes (λ l, l ∈ data mt) h0 h1;
  fill_done : ∀ i' j', processed k j i' j' → Z.of_nat j' < cols_count mt →
                       cell h1 t i' j' = F i' j';
  fill_todo : ∀ i' j', ¬ processed k j i' j' → cell h1 t i' j' = cell h0 t i' j'
}.

(** The matrix [__init__] builds, and the heap it leaves. *)
Definition new_matrix (h : heap) (rows cols : Z) : matrix :=
  {| rows_count := rows;
     cols_count := cols;
     is_square := bool_decide (rows = cols);
     data := seq (length h) (Z.to_nat rows) |}.

Definition new_heap (h : heap) (rows cols : Z) : heap :=
  h ++ replicate (Z.to_nat rows) (OList (replicate (Z.to_nat cols) zero))
    ++ [OMatrix (new_matrix h rows cols)].

(** The postcondition "only [W] was written since [h0]", whatever the
    outcome. *)
Definition only_writes {A} (W : loc → Prop) (h0 : heap) : outcome A → heap → Prop :=
  λ _ h', writes W h0 h'.

(** The in-place operations of the class. *)
Inductive mutation :=
| SetValue (value : num) (row col : Z)
| AddToValue (amount : num) (row col : Z)
| SetData (values : list num)
| SetIdentityRow (row : Z)
| SetIdentityCol (col : Z)
| Scale (factor : num).

Definition mutate (self : loc) (μ : mutation) : M loc :=
  match μ with
  | SetValue value row col => set_value self value row col
  | AddToValue amount row col => add_to_value self amount row col
  | SetData values => set_data self values
  | SetIdentityRow row => set_identity_row self row
  | SetIdentityCol col => set_identity_col self col
  | Scale factor => scale self factor
  end.

(** The heap after a sequence of such calls on [self], whether each of
    them returned or raised. *)
Definition mutate_all (self : loc) (μs : list mutation) (h : heap) : heap :=
  foldl (λ h μ, (mutate self μ h).2) h μs.

(** Row [i] of the matrix at [self], read off the heap. *)
Definition row_of (h : heap) (self : loc) (i : nat) : option (list num) :=
  match h !! self with
  | Some (OMatrix m) =>
      match data m !! i with
      | Some r =>
          match h !! r with
          | Some (OList xs) => Some xs
          | _ => None
          end
      | None => None
      end
  | _ => None
  end.

(** The dot product as the spec means it, [0 + x0*y0 + x1*y1 + ...],
    summed from the left. *)
Definition dot_product (xs ys : list num) : num :=
  foldl (λ acc p, add acc (mul p.1 p.2)) zero (zip xs ys).

(** The elements at [(i, j)] of two matrices compare as close enough. *)
Definition close_at (h : heap) (a b : loc) (i j : nat) : Prop :=
  ∃ x y, cell h a i j = Some x ∧ cell h b i j = Some y ∧
         are_close_enough x y = true.

(** ** Reasoning about computations *)

Lemma wp_run {A} (c : M A) Q h o h' : c h = (o, h') → Q o h' → wp c Q h.
Proof. unfold wp. by intros ->. Qed.

Lemma wp_ret {A} (a : A) Q h : Q (Return a) h → wp (ret a) Q h.
Proof. done. Qed.

Lemma wp_raise {A} e (Q : outcome A → heap → Prop) h :
  Q (Raise e) h → wp (raise e) Q h.
Proof. done. Qed.

Lemma wp_bind {A B} (c : M A) (f : A → M B) Q h :
  wp c (λ o h', match o with
                | Return a => wp (f a) Q h'
                | Raise e => Q (Raise e) h'
                end) h →
  wp (bind c f) Q h.
Proof. unfold wp, bind. by destruct (c h) as [[a|e] h']. Qed.

Lemma wp_mono {A} (c : M A) (Q Q' : outcome A → heap → Prop) h :
  wp c Q h → (∀ o h', Q o h' → Q' o h') → wp c Q' h.
Proof. unfold wp. auto. Qed.

Lemma wp_alloc o Q h : Q (Return (length h)) (h ++ [o]) → wp (alloc o) Q h.
Proof. done. Qed.

(** Loop rules: [I k] holds before iteration [k]; an exception leaves the
    loop at once. *)
Lemma wp_for_each {A} (I : nat → heap → Prop) (xs : list A) body Q h :
  I O h →
  (∀ k x h1, xs !! k = Some x → I k h1 →
     wp (body x) (λ o h2, match o with
                          | Return _ => I (S k) h2
                          | Raise e => Q (Raise e) h2
                          end) h1) →
  (∀ h', I (length xs) h' → Q (Return ()) h') →
  wp (for_each xs body) Q h.
Proof.
  revert I h. induction xs as [|x xs IH]; intros I h H0 Hstep Hend.
  - by apply wp_ret, Hend.
  - cbn [for_each]. apply wp_bind.
    eapply wp_mono; [exact (Hstep O x h eq_refl H0)|].
    intros [[]|e] h1 H1; [|done].
    apply (IH (λ k, I (S k))); [done| |done].
    intros k y h2 Hk. by apply (Hstep (S k)).
Qed.

Lemma wp_for_fold {A St} (I : nat → St → heap → Prop) (xs : list A) s body Q h :
  I O s h →
  (∀ k x s1 h1, xs !! k = Some x → I k s1 h1 →
     wp (body x s1) (λ o h2, match o with
                             | Return s2 => I (S k) s2 h2
                             | Raise e => Q (Raise e) h2
                             end) h1) →
  (∀ s' h', I (length xs) s' h' → Q (Return s') h') →
  wp (for_fold xs s body) Q h.
Proof.
  revert I s h. induction xs as [|x xs IH]; intros I s h H0 Hstep Hend.
  - by apply wp_ret, Hend.
  - cbn [for_fold]. apply wp_bind.
    eapply wp_mono; [exact (Hstep O x s h eq_refl H0)|].
    intros [s1|e] h1 H1; [|done].
    apply (IH (λ k, I (S k))); [done| |done].
    intros k y s2 h2 Hk. by apply (Hstep (S k)).
Qed.

(** For a loop that may [return]: [I k] holds as long as no iteration
    before [k] returned. *)
Lemma wp_for_return {A R} (I : nat → heap → Prop) (xs : list A)
    (body : A → M (option R)) Q h :
  I O h →
  (∀ k x h1, xs !! k = Some x → I k h1 →
     wp (body x) (λ o h2, match o with
                          | Return None => I (S k) h2
                          | Return (Some v) => Q (Return (Some v)) h2
                          | Raise e => Q (Raise e) h2
                          end) h1) →
  (∀ h', I (length xs) h' → Q (Return None) h') →
  wp (for_return xs body) Q h.
Proof.
  revert I h. induction xs as [|x xs IH]; intros I h H0 Hstep Hend.
  - by apply wp_ret, Hend.
  - cbn [for_return]. apply wp_bind.
    eapply wp_mono; [exact (Hstep O x h eq_refl H0)|].
    intros [[v|]|e] h1 H1; [by apply wp_ret| |done].
    apply (IH (λ k, I (S k))); [done| |done].
    intros k y h2 Hk. by apply (Hstep (S k)).
Qed.

(** One step of a sequence: the first computation is run by [t], the rest
    goes on from the heap it leaves. *)
Tactic Notation "wp_step" "with" tactic3(t) :=
  apply wp_bind; eapply wp_run; [solve [t]|cbn beta iota].

(** ** Indexing lemmas *)

Lemma py_index_nat (len k : nat) :
  (k < len)%nat → py_index len (Z.of_nat k) = Some k.
Proof.
  intros Hk. unfold py_index. rewrite decide_True by lia. by rewrite Nat2Z.id.
Qed.

Lemma py_index_None (len : nat) (i : Z) :
  py_index len i = None ↔ ¬ (- Z.of_nat len ≤ i < Z.of_nat len).
Proof.
  unfold py_index. repeat case_decide; split; intros; try done; lia.
Qed.

Lemma py_index_lt (len : nat) (i : Z) k :
  py_index len i = Some k → (k < len)%nat.
Proof.
  unfold py_index. repeat case_decide; intros; simplify_eq; lia.
Qed.

Lemma py_getitem_nat {A} (xs : list A) (k : nat) :
  (k < length xs)%nat → py_getitem xs (Z.of_nat k) = xs !! k.
Proof. intros Hk. unfold py_getitem. by rewrite py_index_nat. Qed.

Lemma py_getitem_None {A} (xs : list A) (i : Z) :
  py_getitem xs i = None ↔ ¬ (- Z.of_nat (length xs) ≤ i < Z.of_nat (length xs)).
Proof.
  unfold py_getitem. rewrite <- py_index_None.
  destruct (py_index (length xs) i) as [k|] eqn:Hk; simpl; [|done].
  apply py_index_lt, lookup_lt_is_Some in Hk. destruct Hk as [x ->]. done.
Qed.

Lemma py_getitem_elem_of {A} (xs : list A) (i : Z) x :
  py_getitem xs i = Some x → x ∈ xs.
Proof.
  unfold py_getitem. destruct (py_index (length xs) i); simpl; [|done].
  apply list_elem_of_lookup_2.
Qed.

Lemma py_setitem_nat {A} (xs : list A) (k : nat) x :
  (k < length xs)%nat → py_setitem xs (Z.of_nat k) x = Some (<[k:=x]> xs).
Proof. intros Hk. unfold py_setitem. by rewrite py_index_nat. Qed.


Lemma py_setitem_length {A} (xs ys : list A) (i : Z) x :
  py_setitem xs i x = Some ys → length ys = length xs.
Proof.
  unfold py_setitem. destruct (py_index (length xs) i); simpl; [|done].
  intros [= <-]. apply length_insert.
Qed.

Lemma range_lookup (n : Z) (k : nat) x :
  range n !! k = Some x → x = Z.of_nat k ∧ Z.of_nat k < n.
Proof. unfold range. intros [-> ?]%lookup_seqZ. split; lia. Qed.

Lemma range_length (n : Z) : length (range n) = Z.to_nat n.
Proof. apply length_seqZ. Qed.

(** ** How the heap evolves *)

Lemma obj_le_refl o : obj_le o o.
Proof. by destruct o. Qed.

Lemma obj_le_trans o1 o2 o3 : obj_le o1 o2 → obj_le o2 o3 → obj_le o1 o3.
Proof. destruct o1, o2, o3; simpl; try done; congruence. Qed.

Lemma writes_refl W h : writes W h h.
Proof. intros l o Hl. exists o. auto using obj_le_refl. Qed.

Lemma writes_trans W h1 h2 h3 :
  writes W h1 h2 → writes W h2 h3 → writes W h1 h3.
Proof.
  intros H12 H23 l o1 Hl.
  destruct (H12 l o1 Hl) as (o2 & Hl2 & Hle2 & Heq2).
  destruct (H23 l o2 Hl2) as (o3 & Hl3 & Hle3 & Heq3).
  exists o3. split_and!; [done|by eapply obj_le_trans|].
  intros HW. by rewrite Heq3, Heq2.
Qed.

Lemma writes_mono (W W' : loc → Prop) h h' :
  (∀ l, W l → W' l) → writes W h h' → writes W' h h'.
Proof.
  intros HW Hw l o Hl. destruct (Hw l o Hl) as (o' & ? & ? & Heq).
  exists o'. split_and!; [done..|]. intros HnW. apply Heq. auto.
Qed.

(** Writing to objects that did not exist in [h1] is no write as far as
    [h1] is concerned. *)
Lemma writes_trans_new (W W' : loc → Prop) h1 h2 h3 :
  writes W h1 h2 → writes W' h2 h3 →
  (∀ l, W' l → W l ∨ h1 !! l = None) →
  writes W h1 h3.
Proof.
  intros H12 H23 HW l o1 Hl.
  destruct (H12 l o1 Hl) as (o2 & Hl2 & Hle2 & Heq2).
  destruct (H23 l o2 Hl2) as (o3 & Hl3 & Hle3 & Heq3).
  exists o3. split_and!; [done|by eapply obj_le_trans|].
  intros HnW. rewrite Heq3, Heq2; [done..|].
  intros HW'. destruct (HW l HW') as [?|Hnone]; [done|congruence].
Qed.

Lemma writes_alloc W h o : writes W h (h ++ [o]).
Proof.
  intros l o' Hl. exists o'. split_and!; [|apply obj_le_refl|done].
  by apply lookup_app_l_Some.
Qed.

Lemma writes_insert_list (W : loc → Prop) h r xs ys :
  h !! r = Some (OList xs) → length ys = length xs → W r →
  writes W h (<[r:=OList ys]> h).
Proof.
  intros Hr Hlen HW l o Hl. destruct (decide (l = r)) as [->|Hne].
  - exists (OList ys). rewrite list_lookup_insert_eq by by eapply lookup_lt_Some.
    simplify_eq. split_and!; [done|by simpl|done].
  - exists o. rewrite list_lookup_insert_ne by done.
    split_and!; [done|apply obj_le_refl|done].
Qed.

Lemma writes_insert_vector (W : loc → Prop) h r xs ys :
  h !! r = Some (OVector xs) → length ys = length xs → W r →
  writes W h (<[r:=OVector ys]> h).
Proof.
  intros Hr Hlen HW l o Hl. destruct (decide (l = r)) as [->|Hne].
  - exists (OVector ys). rewrite list_lookup_insert_eq by by eapply lookup_lt_Some.
    simplify_eq. split_and!; [done|by simpl|done].
  - exists o. rewrite list_lookup_insert_ne by done.
    split_and!; [done|apply obj_le_refl|done].
Qed.

Lemma writes_matrix W h h' l m :
  writes W h h' → h !! l = Some (OMatrix m) → h' !! l = Some (OMatrix m).
Proof.
  intros Hw Hl. destruct (Hw _ _ Hl) as ([] & ? & Hle & _); try done.
  simpl in Hle. by subst.
Qed.

Lemma writes_list W h h' l xs :
  writes W h h' → h !! l = Some (OList xs) →
  ∃ ys, h' !! l = Some (OList ys) ∧ length ys = length xs ∧ (¬ W l → ys = xs).
Proof.
  intros Hw Hl. destruct (Hw _ _ Hl) as ([ys| |] & ? & Hle & Heq); try done.
  exists ys. split_and!; [done|by simpl in Hle|]. intros HW.
  specialize (Heq HW). congruence.
Qed.

Lemma writes_vector W h h' l xs :
  writes W h h' → h !! l = Some (OVector xs) →
  ∃ ys, h' !! l = Some (OVector ys) ∧ length ys = length xs ∧ (¬ W l → ys = xs).
Proof.
  intros Hw Hl. destruct (Hw _ _ Hl) as ([|ys|] & ? & Hle & Heq); try done.
  exists ys. split_and!; [done|by simpl in Hle|]. intros HW.
  specialize (Heq HW). congruence.
Qed.

Lemma writes_unchanged W h h' l o :
  writes W h h' → h !! l = Some o → ¬ W l → h' !! l = Some o.
Proof. intros Hw Hl HW. destruct (Hw _ _ Hl) as (o' & ? & _ & Heq). by rewrite <- Heq. Qed.

(** ** The class invariant *)

Lemma is_row_writes W h h' n r : writes W h h' → is_row h n r → is_row h' n r.
Proof.
  intros Hw (xs & Hr & Hlen).
  destruct (writes_list _ _ _ _ _ Hw Hr) as (ys & ? & ? & _).
  exists ys. split; [done|congruence].
Qed.

Lemma matrix_inv_writes W h h' self m :
  writes W h h' → matrix_inv h self m → matrix_inv h' self m.
Proof.
  intros Hw [? ? ? ? ? Hrows]. split; try done.
  - by eapply writes_matrix.
  - eapply Forall_impl; [exact Hrows|]. intros r. by apply (is_row_writes W).
Qed.

Lemma matrix_inv_row h self m (i : nat) :
  matrix_inv h self m → Z.of_nat i < rows_count m →
  ∃ r xs, data m !! i = Some r ∧ h !! r = Some (OList xs) ∧
          length xs = Z.to_nat (cols_count m).
Proof.
  intros Hinv Hi. destruct (lookup_lt_is_Some_2 (data m) i) as [r Hr].
  { rewrite (inv_rows_count _ _ _ Hinv) in Hi. lia. }
  pose proof (inv_rows _ _ _ Hinv) as Hrows.
  rewrite Forall_forall in Hrows.
  destruct (Hrows r) as (xs & ? & ?); [by eapply list_elem_of_lookup_2|].
  by exists r, xs.
Qed.

Lemma matrix_inv_cell h self m (i j : nat) :
  matrix_inv h self m → Z.of_nat i < rows_count m → Z.of_nat j < cols_count m →
  ∃ r xs x, data m !! i = Some r ∧ h !! r = Some (OList xs) ∧
            length xs = Z.to_nat (cols_count m) ∧ xs !! j = Some x ∧
            cell h self i j = Some x.
Proof.
  intros Hinv Hi Hj.
  destruct (matrix_inv_row _ _ _ i Hinv Hi) as (r & xs & Hr & Hxs & Hlen).
  destruct (lookup_lt_is_Some_2 xs j) as [x Hx]; [lia|].
  exists r, xs, x. split_and!; try done.
  unfold cell. by rewrite (inv_self _ _ _ Hinv), Hr, Hxs.
Qed.

(** ** What the primitive steps compute *)

Lemma get_matrix_run h self m :
  h !! self = Some (OMatrix m) → get_matrix self h = (Return m, h).
Proof. unfold get_matrix. by intros ->. Qed.

Lemma get_rows_count_run h self m :
  h !! self = Some (OMatrix m) → get_rows_count self h = (Return (rows_count m), h).
Proof. intros Hm. unfold get_rows_count, bind. by rewrite (get_matrix_run _ _ _ Hm). Qed.

Lemma get_cols_count_run h self m :
  h !! self = Some (OMatrix m) → get_cols_count self h = (Return (cols_count m), h).
Proof. intros Hm. unfold get_cols_count, bind. by rewrite (get_matrix_run _ _ _ Hm). Qed.

Lemma data_row_run h self m row :
  h !! self = Some (OMatrix m) →
  data_row self row h =
    (match py_getitem (data m) row with
     | Some r => Return r
     | None => Raise IndexError
     end, h).
Proof.
  intros Hm. unfold data_row, data_row_of, bind. simpl.
  rewrite (get_matrix_run _ _ _ Hm). by destruct (py_getitem _ _).
Qed.

Lemma data_row_nat h self m (i : nat) r :
  h !! self = Some (OMatrix m) → data m !! i = Some r →
  data_row self (Z.of_nat i) h = (Return r, h).
Proof.
  intros Hm Hr. rewrite (data_row_run _ _ _ _ Hm).
  rewrite py_getitem_nat by by eapply lookup_lt_Some. by rewrite Hr.
Qed.

Lemma list_getitem_nat h r xs (j : nat) x :
  h !! r = Some (OList xs) → xs !! j = Some x →
  list_getitem r (Z.of_nat j) h = (Return x, h).
Proof.
  intros Hr Hx. unfold list_getitem. rewrite Hr.
  rewrite py_getitem_nat by by eapply lookup_lt_Some. by rewrite Hx.
Qed.

Lemma list_setitem_nat h r xs (j : nat) x :
  h !! r = Some (OList xs) → (j < length xs)%nat →
  list_setitem r (Z.of_nat j) x h = (Return (), <[r:=OList (<[j:=x]> xs)]> h).
Proof.
  intros Hr Hj. unfold list_setitem. rewrite Hr. by rewrite py_setitem_nat.
Qed.

Lemma list_getitem_out_of_range h r xs col :
  h !! r = Some (OList xs) →
  ¬ (- Z.of_nat (length xs) ≤ col < Z.of_nat (length xs)) →
  list_getitem r col h = (Raise IndexError, h).
Proof.
  intros Hr Hcol. unfold list_getitem. rewrite Hr.
  by apply py_getitem_None in Hcol as ->.
Qed.


Lemma data_row_out_of_range h self m row :
  matrix_inv h self m →
  ¬ (- rows_count m ≤ row < rows_count m) →
  data_row self row h = (Raise IndexError, h).
Proof.
  intros Hinv Hrow. rewrite (data_row_run _ _ m) by apply Hinv.
  rewrite (inv_rows_count _ _ _ Hinv) in Hrow.
  by apply py_getitem_None in Hrow as ->.
Qed.

Lemma data_row_in_range h self m row :
  matrix_inv h self m →
  - rows_count m ≤ row < rows_count m →
  ∃ r xs, data_row self row h = (Return r, h) ∧ r ∈ data m ∧
          h !! r = Some (OList xs) ∧ Z.of_nat (length xs) = cols_count m.
Proof.
  intros Hinv Hrow. rewrite (data_row_run _ _ m) by apply Hinv.
  destruct (py_getitem (data m) row) as [r|] eqn:Hr.
  - pose proof (inv_rows _ _ _ Hinv) as Hrows. rewrite Forall_forall in Hrows.
    apply py_getitem_elem_of in Hr.
    destruct (Hrows r Hr) as (xs & Hxs & Hlen).
    exists r, xs. split_and!; [done..|].
    pose proof (inv_cols_count _ _ _ Hinv). lia.
  - apply py_getitem_None in Hr. rewrite (inv_rows_count _ _ _ Hinv) in Hrow. lia.
Qed.


(** ** Out-of-range indices *)

Lemma cell_access_out_of_range h self m row col :
  matrix_inv h self m →
  ¬ (- rows_count m ≤ row < rows_count m) ∨
  ¬ (- cols_count m ≤ col < cols_count m) →
  data_row self row h = (Raise IndexError, h) ∨
  ∃ r xs, data_row self row h = (Return r, h) ∧ h !! r = Some (OList xs) ∧
          ¬ (- Z.of_nat (length xs) ≤ col < Z.of_nat (length xs)).
Proof.
  intros Hinv Hout.
  destruct (decide (- rows_count m ≤ row < rows_count m)) as [Hrow|Hrow].
  - right. destruct (data_row_in_range _ _ _ _ Hinv Hrow) as (r & xs & ? & _ & ? & Hlen).
    exists r, xs. split_and!; [done..|]. rewrite Hlen. by destruct Hout.
  - left. by apply data_row_out_of_range with m.
Qed.

(** Indices in [-rows_count, rows_count) and [-cols_count, cols_count)
    are served: [value_at] returns and changes nothing. *)
Lemma value_at_in_range h self m row col :
  matrix_inv h self m →
  - rows_count m ≤ row < rows_count m →
  - cols_count m ≤ col < cols_count m →
  ∃ x, value_at self row col h = (Return x, h).
Proof.
  intros Hinv Hrow Hcol. unfold value_at, bind.
  destruct (data_row_in_range _ _ _ _ Hinv Hrow) as (r & xs & -> & _ & Hr & Hlen).
  unfold list_getitem. rewrite Hr.
  destruct (py_getitem xs col) as [x|] eqn:Hx; [by exists x|].
  apply py_getitem_None in Hx. lia.
Qed.


(** ** The multiplication operator *)

(** The method [__mul__] hands its argument back. *)
Lemma Matrix_mul_returns_operand (h : heap) (self : loc) (other : value) :
  Matrix_mul self other h = (Return other, h).
Proof. reflexivity. Qed.

(** C3, amended. [m * x] is [x] itself (for an object, the same
    reference) for every operand [x] but [NotImplemented], and no heap
    object is created or changed: neither a matrix product nor a scaling.
    [m * NotImplemented] raises [TypeError]: the method still returns its
    operand, which the operator reads as a refusal. *)
Theorem Matrix_times_returns_operand (h : heap) (self : loc) (other : value) :
  (other ≠ VNotImplemented → Matrix_times self other h = (Return other, h)) ∧
  (other = VNotImplemented → Matrix_times self other h = (Raise TypeError, h)).
Proof.
  unfold Matrix_times, bind. rewrite Matrix_mul_returns_operand.
  split; intros Hother; by destruct other.
Qed.

(** ** [set_data] on a list of the wrong length *)

(** C10. The length is compared before the loops: the call raises with the
    heap, hence every element of the matrix, exactly as it was. *)
Theorem set_data_size_mismatch_unchanged h self m (values : list num) :
  h !! self = Some (OMatrix m) →
  Z.of_nat (length values) ≠ rows_count m * cols_count m →
  set_data self values h =
    (Raise (ValueError "Cannot set data: size mismatch"), h).
Proof.
  intros Hm Hlen. unfold set_data, bind.
  rewrite (get_cols_count_run _ _ m), (get_rows_count_run _ _ m) by done.
  rewrite decide_True by lia. done.
Qed.

(** ** Writing one item *)

Lemma store_item_writes h r j x : writes (λ l, l = r) h (store_item h r j x).
Proof.
  unfold store_item. destruct (h !! r) as [[xs| |]|] eqn:Hr; try apply writes_refl.
  apply writes_insert_list with xs; [done|apply length_insert|done].
Qed.

Lemma store_item_lookup_ne h r j x l : l ≠ r → store_item h r j x !! l = h !! l.
Proof.
  intros Hne. unfold store_item. destruct (h !! r) as [[xs| |]|]; try done.
  by rewrite list_lookup_insert_ne.
Qed.

Lemma store_item_lookup h r j x xs :
  h !! r = Some (OList xs) →
  store_item h r j x !! r = Some (OList (<[j:=x]> xs)).
Proof.
  intros Hr. unfold store_item. rewrite Hr.
  apply list_lookup_insert_eq. by eapply lookup_lt_Some.
Qed.

Lemma list_setitem_store h r xs (j : nat) x :
  h !! r = Some (OList xs) → (j < length xs)%nat →
  list_setitem r (Z.of_nat j) x h = (Return (), store_item h r j x).
Proof.
  intros Hr Hj. rewrite (list_setitem_nat _ _ xs) by done.
  unfold store_item. by rewrite Hr.
Qed.

Lemma matrix_inv_store h self m r j x :
  matrix_inv h self m → matrix_inv (store_item h r j x) self m.
Proof. apply matrix_inv_writes with (λ l, l = r), store_item_writes. Qed.

(** Storing into row [i] of a matrix changes the cell [(i, j)] and no
    other cell of that matrix: its rows are distinct lists. *)
Lemma cell_store_item h self m (i j i' j' : nat) r x :
  matrix_inv h self m → data m !! i = Some r →
  Z.of_nat j < cols_count m →
  cell (store_item h r j x) self i' j' =
    if decide (i' = i ∧ j' = j) then Some x else cell h self i' j'.
Proof.
  intros Hinv Hr Hj.
  pose proof (inv_rows _ _ _ Hinv) as Hrows. rewrite Forall_forall in Hrows.
  destruct (Hrows r) as (xs & Hxs & Hlen); [by eapply list_elem_of_lookup_2|].
  assert (self ≠ r) as Hne.
  { intros ->. rewrite (inv_self _ _ _ Hinv) in Hxs. done. }
  unfold cell. rewrite store_item_lookup_ne by done.
  rewrite (inv_self _ _ _ Hinv).
  destruct (data m !! i') as [r'|] eqn:Hr';
    [|by rewrite decide_False by (intros [-> _]; congruence)].
  destruct (decide (i' = i)) as [->|Hi].
  - simplify_eq. rewrite (store_item_lookup _ _ _ _ xs), Hxs by done.
    destruct (decide (j' = j)) as [->|Hj'].
    + rewrite decide_True by done. apply list_lookup_insert_eq. lia.
    + rewrite decide_False by lia. by apply list_lookup_insert_ne.
  - rewrite decide_False by lia.
    rewrite store_item_lookup_ne; [done|].
    intros ->. apply Hi. by eapply NoDup_lookup; [apply Hinv|..].
Qed.

(** Cells of a matrix none of whose rows is written are kept. *)
Lemma cell_writes (W : loc → Prop) h h' o i j x :
  writes W h h' →
  (∀ m r, h !! o = Some (OMatrix m) → r ∈ data m → ¬ W r) →
  cell h o i j = Some x → cell h' o i j = Some x.
Proof.
  intros Hw Hdisj. unfold cell.
  destruct (h !! o) as [[| |m]|] eqn:Ho; try done.
  rewrite (writes_matrix _ _ _ _ _ Hw Ho).
  destruct (data m !! i) as [r|] eqn:Hr; [|done].
  destruct (h !! r) as [[xs| |]|] eqn:Hxs; try done.
  rewrite (writes_unchanged _ _ _ _ _ Hw Hxs); [done|].
  eapply Hdisj; [done|]. by eapply list_elem_of_lookup_2.
Qed.

(** Reading a cell through the accessors. *)
Lemma read_cell_run h self i j x :
  cell h self i j = Some x →
  ∃ r, data_row self (Z.of_nat i) h = (Return r, h) ∧
       list_getitem r (Z.of_nat j) h = (Return x, h).
Proof.
  unfold cell. destruct (h !! self) as [[| |m]|] eqn:Hm; try done.
  destruct (data m !! i) as [r|] eqn:Hr; [|done].
  destruct (h !! r) as [[xs| |]|] eqn:Hxs; try done. intros Hx.
  exists r. split; [by apply data_row_nat with m|by apply list_getitem_nat with xs].
Qed.

Lemma value_at_cell h self i j x :
  cell h self i j = Some x →
  value_at self (Z.of_nat i) (Z.of_nat j) h = (Return x, h).
Proof.
  intros (r & Hr & Hx)%read_cell_run. unfold value_at, bind. by rewrite Hr.
Qed.

(** ** The row-by-row, column-by-column loops *)

Lemma fill_inv_start t mt F h0 : matrix_inv h0 t mt → fill_inv t mt F h0 0 0 h0.
Proof.
  intros Hinv. split; [done|apply writes_refl| |done].
  intros i' j' [?|[_ ?]]; lia.
Qed.

Lemma fill_inv_next_row t mt F h0 k h1 :
  fill_inv t mt F h0 k (Z.to_nat (cols_count mt)) h1 → fill_inv t mt F h0 (S k) 0 h1.
Proof.
  intros [? ? Hdone Htodo]. split; [done..| |].
  - intros i' j' [?|[_ ?]] Hj'; [|lia]. apply Hdone; [|done].
    unfold processed. lia.
  - intros i' j' Hn. apply Htodo. unfold processed in *. lia.
Qed.

Lemma fill_inv_store t mt F h0 (k j : nat) h1 r x :
  fill_inv t mt F h0 k j h1 → data mt !! k = Some r →
  Z.of_nat j < cols_count mt → F k j = Some x →
  fill_inv t mt F h0 k (S j) (store_item h1 r j x).
Proof.
  intros [Hinv Hw Hdone Htodo] Hr Hj HF. split.
  - by apply matrix_inv_store.
  - eapply writes_trans; [exact Hw|].
    eapply writes_mono; [|apply store_item_writes].
    intros l ->. by eapply list_elem_of_lookup_2.
  - intros i' j' Hp Hj'. rewrite (cell_store_item _ _ mt k j) by done.
    case_decide as Heq; [by destruct Heq as [-> ->]|].
    apply Hdone; [|done]. unfold processed in *. lia.
  - intros i' j' Hp. rewrite (cell_store_item _ _ mt k j) by done.
    rewrite decide_False by (unfold processed in Hp; lia).
    apply Htodo. unfold processed in *. lia.
Qed.

Lemma wp_fill (t : loc) (mt : matrix) (F : nat → nat → option num)
    (row_body : Z → M unit) (body : Z → Z → M unit) Q h0 :
  matrix_inv h0 t mt →
  (∀ (i : nat) h1, fill_inv t mt F h0 i 0 h1 →
     row_body (Z.of_nat i) h1 =
       for_each (range (cols_count mt)) (body (Z.of_nat i)) h1) →
  (∀ (i j : nat) h1 r,
     Z.of_nat i < rows_count mt → Z.of_nat j < cols_count mt →
     fill_inv t mt F h0 i j h1 → data mt !! i = Some r →
     ∃ x, F i j = Some x ∧
          body (Z.of_nat i) (Z.of_nat j) h1 = (Return (), store_item h1 r j x)) →
  (∀ h', fill_inv t mt F h0 (Z.to_nat (rows_count mt)) 0 h' → Q (Return ()) h') →
  wp (for_each (range (rows_count mt)) row_body) Q h0.
Proof.
  intros Hinv Hrow Hbody Hend.
  apply wp_for_each with (I := λ k, fill_inv t mt F h0 k 0).
  - by apply fill_inv_start.
  - intros k x h1 [-> Hk]%range_lookup Hk1.
    unfold wp at 1. rewrite Hrow by done.
    apply (wp_for_each (λ j, fill_inv t mt F h0 k j)); [done| |].
    + intros j y h2 [-> Hj]%range_lookup Hj2.
      destruct (matrix_inv_row h2 t mt k) as (r & _ & Hr & _);
        [apply Hj2|done|].
      destruct (Hbody k j h2 r) as (x & HF & Hrun); [done..|].
      eapply wp_run; [exact Hrun|]. by apply fill_inv_store.
    + intros h2. rewrite range_length. apply fill_inv_next_row.
  - intros h'. rewrite range_length. apply Hend.
Qed.

(** ** [set_data] *)

Lemma row_major_lt (R C i j : Z) :
  0 ≤ i < R → 0 ≤ j < C → 0 ≤ i * C + j < R * C.
Proof. nia. Qed.

Lemma set_data_fill h self m (values : list num) :
  matrix_inv h self m →
  Z.of_nat (length values) = rows_count m * cols_count m →
  wp (set_data self values)
     (λ o h', o = Return self ∧
        fill_inv self m
          (λ i j, values !! (i * Z.to_nat (cols_count m) + j)%nat)
          h (Z.to_nat (rows_count m)) 0 h') h.
Proof.
  intros Hinv Hlen. unfold set_data.
  pose proof (inv_cols_count _ _ _ Hinv) as HC.
  wp_step with (by apply get_cols_count_run, Hinv).
  wp_step with (by apply get_rows_count_run, Hinv).
  rewrite decide_False by lia.
  wp_step with (by apply get_rows_count_run, Hinv).
  apply wp_bind.
  apply wp_fill with (t := self)
    (F := λ i j, values !! (i * Z.to_nat (cols_count m) + j)%nat)
    (body := λ row col,
       match py_getitem values (cols_count m * row + col) with
       | Some x => r <- data_row self row ;; list_setitem r col x
       | None => raise IndexError
       end).
  - done.
  - intros i h1 Hf. unfold bind.
    by rewrite !(get_cols_count_run _ _ m) by apply Hf.
  - intros i j h1 r Hi Hj Hf Hr.
    replace (cols_count m * Z.of_nat i + Z.of_nat j)
      with (Z.of_nat (i * Z.to_nat (cols_count m) + j)) by lia.
    pose proof (row_major_lt (rows_count m) (cols_count m) (Z.of_nat i) (Z.of_nat j)).
    rewrite py_getitem_nat by lia.
    destruct (lookup_lt_is_Some_2 values (i * Z.to_nat (cols_count m) + j)) as [x Hx];
      [lia|].
    exists x. split; [done|]. rewrite Hx. unfold bind.
    rewrite (data_row_nat _ _ m _ r) by (done || apply Hf).
    destruct (matrix_inv_row h1 self m i) as (r' & xs & Hr' & Hxs & Hxlen);
      [apply Hf|done|]. simplify_eq.
    apply list_setitem_store with xs; [done|lia].
  - intros h' Hf. by apply wp_ret.
Qed.

(** C6. [set_data] raises the size-mismatch error exactly when
    [len(data) != rows_count * cols_count], and then changes nothing;
    otherwise it returns the matrix itself and afterwards
    [value_at(r, c) == data[r * cols_count + c]] for every valid [(r, c)]. *)
Theorem set_data_row_major h self m (values : list num) :
  matrix_inv h self m →
  (Z.of_nat (length values) ≠ rows_count m * cols_count m →
   set_data self values h =
     (Raise (ValueError "Cannot set data: size mismatch"), h)) ∧
  (Z.of_nat (length values) = rows_count m * cols_count m →
   ∃ h', set_data self values h = (Return self, h') ∧
         matrix_inv h' self m ∧
         ∀ r c, 0 ≤ r < rows_count m → 0 ≤ c < cols_count m →
           ∃ x, py_getitem values (r * cols_count m + c) = Some x ∧
                value_at self r c h' = (Return x, h')).
Proof.
  intros Hinv. split.
  - intros Hlen. unfold set_data, bind.
    rewrite (get_cols_count_run _ _ m), (get_rows_count_run _ _ m) by apply Hinv.
    by rewrite decide_True by lia.
  - intros Hlen. pose proof (set_data_fill _ _ _ _ Hinv Hlen) as Hwp.
    unfold wp in Hwp. destruct (set_data self values h) as [o h'].
    simpl in Hwp. destruct Hwp as [-> Hf]. exists h'. split_and!; [done|apply Hf|].
    intros r c Hr Hc.
    pose proof (row_major_lt _ _ _ _ Hr Hc).
    destruct (lookup_lt_is_Some_2 values
                (Z.to_nat r * Z.to_nat (cols_count m) + Z.to_nat c)) as [x Hx]; [lia|].
    exists x. split.
    + replace (r * cols_count m + c)
        with (Z.of_nat (Z.to_nat r * Z.to_nat (cols_count m) + Z.to_nat c)) by lia.
      rewrite py_getitem_nat by lia. done.
    + rewrite <- (Z2Nat.id r), <- (Z2Nat.id c) by lia.
      apply value_at_cell.
      rewrite (fill_done _ _ _ _ _ _ _ Hf (Z.to_nat r) (Z.to_nat c)).
      * done.
      * unfold processed. lia.
      * lia.
Qed.

(** ** Construction *)

Lemma list_of_list_of_zeros_loop_run (n : nat) (cols : Z) h :
  list_of_list_of_zeros_loop n cols h =
    (Return (seq (length h) n),
     h ++ replicate n (OList (replicate (Z.to_nat cols) zero))).
Proof.
  revert h. induction n as [|n IH]; intros h.
  - simpl. unfold ret. by rewrite app_nil_r.
  - cbn [list_of_list_of_zeros_loop]. unfold bind, list_of_zeros, alloc.
    rewrite IH. unfold ret. rewrite length_app, <- app_assoc. simpl.
    by rewrite Nat.add_1_r.
Qed.

Lemma Matrix_init_run rows cols h :
  Matrix_init rows cols h =
    (Return (length h + Z.to_nat rows)%nat, new_heap h rows cols).
Proof.
  unfold Matrix_init, list_of_list_of_zeros, bind, alloc.
  rewrite list_of_list_of_zeros_loop_run.
  rewrite length_app, length_replicate, <- app_assoc. done.
Qed.

Lemma new_heap_self h rows cols :
  new_heap h rows cols !! (length h + Z.to_nat rows)%nat =
    Some (OMatrix (new_matrix h rows cols)).
Proof.
  unfold new_heap. rewrite lookup_app_r by lia.
  rewrite lookup_app_r by (rewrite length_replicate; lia).
  rewrite length_replicate. by replace (_ - _ - _)%nat with O by lia.
Qed.

Lemma new_heap_row h rows cols (i : nat) :
  (i < Z.to_nat rows)%nat →
  new_heap h rows cols !! (length h + i)%nat =
    Some (OList (replicate (Z.to_nat cols) zero)).
Proof.
  intros Hi. unfold new_heap. rewrite lookup_app_r by lia.
  rewrite lookup_app_l by (rewrite length_replicate; lia).
  apply lookup_replicate_2. lia.
Qed.

Lemma new_heap_old h rows cols l o :
  h !! l = Some o → new_heap h rows cols !! l = Some o.
Proof. intros Hl. unfold new_heap. by apply lookup_app_l_Some. Qed.

Lemma new_heap_writes W h rows cols : writes W h (new_heap h rows cols).
Proof.
  intros l o Hl. exists o. split_and!; [by apply new_heap_old|apply obj_le_refl|done].
Qed.

Lemma new_matrix_fresh h rows cols r :
  r ∈ data (new_matrix h rows cols) → h !! r = None.
Proof. simpl. intros [? _]%elem_of_seq. apply lookup_ge_None. lia. Qed.

Lemma new_matrix_inv h rows cols :
  0 ≤ rows → 0 ≤ cols →
  matrix_inv (new_heap h rows cols) (length h + Z.to_nat rows)%nat
             (new_matrix h rows cols).
Proof.
  intros Hrows Hcols. split; simpl.
  - apply new_heap_self.
  - rewrite length_seq. lia.
  - done.
  - done.
  - apply NoDup_seq.
  - apply Forall_forall. intros r [? ?]%elem_of_seq.
    exists (replicate (Z.to_nat cols) zero). split; [|apply length_replicate].
    replace r with (length h + (r - length h))%nat by lia.
    apply new_heap_row. lia.
Qed.

Lemma new_matrix_cell h rows cols (i j : nat) :
  Z.of_nat i < rows → Z.of_nat j < cols →
  cell (new_heap h rows cols) (length h + Z.to_nat rows)%nat i j = Some zero.
Proof.
  intros Hi Hj. unfold cell. rewrite new_heap_self. simpl.
  rewrite lookup_seq_lt by lia. rewrite new_heap_row by lia.
  apply lookup_replicate_2. lia.
Qed.

(** C7. For non-negative [rows] and [cols] the constructor returns a
    matrix with [rows_count == rows], [cols_count == cols] and
    [value_at(i, j) == 0] at every valid position. *)
Theorem Matrix_init_zero h rows cols :
  0 ≤ rows → 0 ≤ cols →
  ∃ self h', Matrix_init rows cols h = (Return self, h') ∧
    get_rows_count self h' = (Return rows, h') ∧
    get_cols_count self h' = (Return cols, h') ∧
    ∀ i j, 0 ≤ i < rows → 0 ≤ j < cols →
      value_at self i j h' = (Return zero, h').
Proof.
  intros Hrows Hcols.
  exists (length h + Z.to_nat rows)%nat, (new_heap h rows cols).
  split_and!.
  - apply Matrix_init_run.
  - by rewrite (get_rows_count_run _ _ _ (new_heap_self h rows cols)).
  - by rewrite (get_cols_count_run _ _ _ (new_heap_self h rows cols)).
  - intros i j Hi Hj. rewrite <- (Z2Nat.id i), <- (Z2Nat.id j) by lia.
    apply value_at_cell, new_matrix_cell; lia.
Qed.

(** ** [copy] *)

(** Nothing that existed in [h] is written by a loop that only stores
    into the rows of a matrix allocated after [h]. *)
Lemma writes_fresh_rows h hc h1 (mc : matrix) :
  writes (λ _, False) h hc →
  writes (λ l, l ∈ data mc) hc h1 →
  (∀ r, r ∈ data mc → h !! r = None) →
  writes (λ _, False) h h1.
Proof. intros H1 H2 Hfresh. eapply writes_trans_new; [done..|]. auto. Qed.

Lemma cell_kept h h' o i j x :
  writes (λ _, False) h h' → cell h o i j = Some x → cell h' o i j = Some x.
Proof. intros Hw. eapply cell_writes; [done|]. auto. Qed.

Lemma copy_fill h self m :
  matrix_inv h self m →
  wp (copy self)
     (λ o h', o = Return (length h + Z.to_nat (rows_count m))%nat ∧
        fill_inv (length h + Z.to_nat (rows_count m))%nat
          (new_matrix h (rows_count m) (cols_count m))
          (λ i j, cell h self i j)
          (new_heap h (rows_count m) (cols_count m))
          (Z.to_nat (rows_count m)) 0 h') h.
Proof.
  intros Hinv. unfold copy.
  pose proof (inv_cols_count _ _ _ Hinv) as HC.
  pose proof (inv_rows_count _ _ _ Hinv) as HR.
  set (c := (length h + Z.to_nat (rows_count m))%nat).
  set (mc := new_matrix h (rows_count m) (cols_count m)).
  set (hc := new_heap h (rows_count m) (cols_count m)).
  assert (matrix_inv hc c mc) as Hc by (apply new_matrix_inv; lia).
  assert (∀ h1, writes (λ l, l ∈ data mc) hc h1 → writes (λ _, False) h h1) as Hold.
  { intros h1 Hw. apply writes_fresh_rows with hc mc; [|done|].
    - apply new_heap_writes.
    - apply new_matrix_fresh. }
  wp_step with (by apply get_rows_count_run, Hinv).
  wp_step with (by apply get_cols_count_run, Hinv).
  wp_step with (apply Matrix_init_run).
  fold c hc.
  wp_step with (by apply get_rows_count_run, new_heap_old, Hinv).
  apply wp_bind.
  change (rows_count m) with (rows_count mc) at 1.
  apply wp_fill with (t := c) (F := λ i j, cell h self i j)
    (body := λ i j,
       r <- data_row self i ;;
       x <- list_getitem r j ;;
       r' <- data_row c i ;;
       list_setitem r' j x).
  - done.
  - intros i h1 Hf. unfold bind.
    rewrite (get_cols_count_run _ _ m); [done|].
    eapply writes_matrix; [apply Hold, Hf|apply Hinv].
  - intros i j h1 r' Hi Hj Hf Hr'.
    destruct (matrix_inv_cell h self m i j Hinv Hi Hj) as (_ & _ & x & _ & _ & _ & _ & Hx).
    exists x. split; [done|].
    apply (cell_kept h h1) in Hx; [|apply Hold, Hf].
    destruct (read_cell_run _ _ _ _ _ Hx) as (r & Hr & Hget).
    unfold bind. rewrite Hr, Hget.
    rewrite (data_row_nat _ _ mc _ r') by (done || apply Hf).
    destruct (matrix_inv_row h1 c mc i) as (r'' & xs & Hr'' & Hxs & Hxlen);
      [apply Hf|done|]. simplify_eq.
    apply list_setitem_store with xs; [done|].
    rewrite Hxlen. change (cols_count mc) with (cols_count m) in *. lia.
  - intros h' Hf. by apply wp_ret.
Qed.

(** [copy] returns a new matrix of the same shape with the same cells; its
    rows are new lists, and nothing that existed before is changed. *)
Lemma copy_run h self m :
  matrix_inv h self m →
  ∃ c mc h', copy self h = (Return c, h') ∧
    h !! c = None ∧
    matrix_inv h' c mc ∧
    rows_count mc = rows_count m ∧ cols_count mc = cols_count m ∧
    (∀ r, r ∈ data mc → h !! r = None) ∧
    writes (λ _, False) h h' ∧
    ∀ i j : nat, Z.of_nat i < rows_count m → Z.of_nat j < cols_count m →
      cell h' c i j = cell h self i j.
Proof.
  intros Hinv. pose proof (copy_fill _ _ _ Hinv) as Hwp.
  unfold wp in Hwp. destruct (copy self h) as [o h']. simpl in Hwp.
  destruct Hwp as [-> Hf].
  exists (length h + Z.to_nat (rows_count m))%nat,
         (new_matrix h (rows_count m) (cols_count m)), h'.
  split_and!; try done.
  - apply lookup_ge_None. lia.
  - apply Hf.
  - apply new_matrix_fresh.
  - eapply writes_fresh_rows;
      [apply new_heap_writes|apply Hf|apply new_matrix_fresh].
  - intros i j Hi Hj.
    by rewrite (fill_done _ _ _ _ _ _ _ Hf i j); [|unfold processed; lia|done].
Qed.

(** ** Mutations *)

(** Whatever the outcome, a mutation writes to rows of [self] only. The
    rules below carry the postcondition "only [W] was written since [h0]"
    through each kind of step. *)
Section frame.
Context (W : loc → Prop) (h0 : heap).

Local Abbreviation only_writes := (only_writes W h0).

Lemma frame_ret {A} (a : A) h : writes W h0 h → wp (ret a) only_writes h.
Proof. done. Qed.

Lemma frame_raise {A} e h : writes W h0 h → wp (raise (A:=A) e) only_writes h.
Proof. done. Qed.

Lemma frame_if {A} (P : Prop) `{!Decision P} (c1 c2 : M A) h :
  wp c1 only_writes h → wp c2 only_writes h →
  wp (if decide P then c1 else c2) only_writes h.
Proof. by case_decide. Qed.

Lemma frame_get {A B} (f : matrix → A) (k : A → M B) self m h :
  h !! self = Some (OMatrix m) →
  wp (k (f m)) only_writes h →
  wp (bind (bind (get_matrix self) (λ m, ret (f m))) k) only_writes h.
Proof.
  intros Hm Hk. apply wp_bind.
  eapply wp_run;
    [unfold bind; by rewrite (get_matrix_run _ _ _ Hm)|exact Hk].
Qed.

Lemma frame_data_row {B} (k : loc → M B) self m row h :
  h !! self = Some (OMatrix m) → writes W h0 h →
  (∀ r, r ∈ data m → wp (k r) only_writes h) →
  wp (bind (data_row self row) k) only_writes h.
Proof.
  intros Hm Hw Hk. apply wp_bind. unfold wp at 1.
  rewrite (data_row_run _ _ _ _ Hm).
  destruct (py_getitem (data m) row) as [r|] eqn:Hr; simpl; [|done].
  apply Hk. by eapply py_getitem_elem_of.
Qed.

Lemma frame_getitem {B} (k : num → M B) r j h :
  writes W h0 h →
  (∀ x, wp (k x) only_writes h) →
  wp (bind (list_getitem r j) k) only_writes h.
Proof.
  intros Hw Hk. apply wp_bind. unfold wp at 1, list_getitem.
  destruct (h !! r) as [[xs| |]|]; simpl; try done.
  destruct (py_getitem xs j); simpl; [apply Hk|done].
Qed.

Lemma frame_setitem_heap r j x h :
  W r → writes W h0 h → writes W h0 (list_setitem r j x h).2.
Proof.
  intros Hr Hw. unfold list_setitem.
  destruct (h !! r) as [[xs| |]|] eqn:Hxs; simpl; try done.
  destruct (py_setitem xs j x) as [ys|] eqn:Hys; simpl; [|done].
  eapply writes_trans; [exact Hw|].
  apply writes_insert_list with xs; [done| |done].
  by eapply py_setitem_length.
Qed.

Lemma frame_setitem r j x h :
  W r → writes W h0 h → wp (list_setitem r j x) only_writes h.
Proof. apply frame_setitem_heap. Qed.

Lemma frame_setitem_then {B} (k : M B) r j x h :
  W r → writes W h0 h →
  (∀ h', writes W h0 h' → wp k only_writes h') →
  wp (bind (list_setitem r j x) (λ _, k)) only_writes h.
Proof.
  intros Hr Hw Hk. apply wp_bind. unfold wp at 1.
  pose proof (frame_setitem_heap r j x h Hr Hw) as Hw'.
  destruct (list_setitem r j x h) as [[[]|e] h']; simpl in *; auto.
Qed.

Lemma frame_for_each {A B} (xs : list A) body (k : M B) h :
  writes W h0 h →
  (∀ x h1, writes W h0 h1 → wp (body x) only_writes h1) →
  (∀ h', writes W h0 h' → wp k only_writes h') →
  wp (bind (for_each xs body) (λ _, k)) only_writes h.
Proof.
  intros Hw Hbody Hk. apply wp_bind.
  apply wp_for_each with (I := λ _ h1, writes W h0 h1); [done| |].
  - intros _ x h1 _ Hw1. eapply wp_mono; [by apply Hbody|].
    by intros [[]|e] h2.
  - auto.
Qed.

Lemma frame_for_each_last {A} (xs : list A) body h :
  writes W h0 h →
  (∀ x h1, writes W h0 h1 → wp (body x) only_writes h1) →
  wp (for_each xs body) only_writes h.
Proof.
  intros Hw Hbody.
  apply wp_for_each with (I := λ _ h1, writes W h0 h1); [done| |done].
  intros _ x h1 _ Hw1. eapply wp_mono; [by apply Hbody|].
  by intros [[]|e] h2.
Qed.
End frame.

Lemma mutate_writes self m μ h :
  h !! self = Some (OMatrix m) →
  writes (λ l, l ∈ data m) h (mutate self μ h).2.
Proof.
  intros Hm.
  assert (∀ h1, writes (λ l, l ∈ data m) h h1 → h1 !! self = Some (OMatrix m))
    as Hself by (intros h1 Hw; by eapply writes_matrix).
  change (wp (mutate self μ) (only_writes (λ l, l ∈ data m) h) h).
  pose proof (writes_refl (λ l, l ∈ data m) h) as Hw.
  destruct μ as [value row col|amount row col|values|row|col|factor]; simpl.
  - apply frame_data_row with m; [done..|]. intros r Hr.
    apply frame_setitem_then; [done..|]. intros. by apply frame_ret.
  - apply frame_data_row with m; [done..|]. intros r Hr.
    apply frame_getitem; [done|]. intros x.
    apply frame_setitem_then; [done..|]. intros. by apply frame_ret.
  - apply frame_get with m; [done|]. apply frame_get with m; [done|].
    apply frame_if; [by apply frame_raise|].
    apply frame_get with m; [done|].
    apply frame_for_each; [done| |intros; by apply frame_ret].
    intros row h1 Hw1. apply frame_get with m; [auto|]. cbn zeta.
    apply frame_get with m; [auto|].
    apply frame_for_each_last; [done|]. intros col h2 Hw2.
    destruct (py_getitem values _); [|by apply frame_raise].
    apply frame_data_row with m; [auto|done|]. intros r Hr.
    by apply frame_setitem.
  - apply frame_get with m; [done|].
    apply frame_for_each; [done| |intros; by apply frame_ret].
    intros col h1 Hw1. apply frame_data_row with m; [auto|done|]. intros r Hr.
    by apply frame_setitem.
  - apply frame_get with m; [done|].
    apply frame_for_each; [done| |intros; by apply frame_ret].
    intros row h1 Hw1. apply frame_data_row with m; [auto|done|]. intros r Hr.
    by apply frame_setitem.
  - apply frame_get with m; [done|].
    apply frame_for_each; [done| |intros; by apply frame_ret].
    intros i h1 Hw1. apply frame_get with m; [auto|].
    apply frame_for_each_last; [done|]. intros j h2 Hw2.
    apply frame_data_row with m; [auto|done|]. intros r Hr.
    apply frame_getitem; [done|]. intros x.
    by apply frame_setitem.
Qed.

Lemma mutate_all_writes self m μs h :
  h !! self = Some (OMatrix m) →
  writes (λ l, l ∈ data m) h (mutate_all self μs h).
Proof.
  revert h. induction μs as [|μ μs IH]; intros h Hm; [apply writes_refl|].
  simpl. pose proof (mutate_writes self m μ h Hm) as Hw.
  eapply writes_trans; [exact Hw|]. apply IH. by eapply writes_matrix.
Qed.

(** The invariant is what [__init__] sets up, and no mutation breaks it,
    whether it returns or raises. *)
Lemma Matrix_init_matrix_inv h rows cols :
  0 ≤ rows → 0 ≤ cols →
  ∃ self m h', Matrix_init rows cols h = (Return self, h') ∧
    h !! self = None ∧ matrix_inv h' self m.
Proof.
  intros Hrows Hcols.
  exists (length h + Z.to_nat rows)%nat, (new_matrix h rows cols),
         (new_heap h rows cols).
  split_and!; [apply Matrix_init_run| |by apply new_matrix_inv].
  apply lookup_ge_None. lia.
Qed.

Lemma mutate_all_matrix_inv h self m μs :
  matrix_inv h self m → matrix_inv (mutate_all self μs h) self m.
Proof.
  intros Hinv. eapply matrix_inv_writes; [|exact Hinv].
  apply mutate_all_writes, Hinv.
Qed.

(** ** Addition *)

Lemma Matrix_add_run h self m other mo :
  matrix_inv h self m → matrix_inv h other mo →
  rows_count m = rows_count mo → cols_count m = cols_count mo →
  ∃ res mres h', Matrix_add self (VRef other) h = (Return res, h') ∧
    h !! res = None ∧
    matrix_inv h' res mres ∧
    rows_count mres = rows_count m ∧ cols_count mres = cols_count m ∧
    (∀ r, r ∈ data mres → h !! r = None) ∧
    writes (λ _, False) h h' ∧
    ∀ i j : nat, Z.of_nat i < rows_count m → Z.of_nat j < cols_count m →
      ∃ x y, cell h self i j = Some x ∧ cell h other i j = Some y ∧
             cell h' res i j = Some (add x y).
Proof.
  intros Hinv Hinvo HR HC.
  destruct (copy_run _ _ _ Hinv)
    as (c & mc & hc & Hcopy & Hnew & Hc & HRc & HCc & Hfresh & Hwc & Hcells).
  set (F := λ i j : nat,
         x ← cell h self i j; y ← cell h other i j; Some (add x y)).
  assert (∀ h1, writes (λ l, l ∈ data mc) hc h1 → writes (λ _, False) h h1) as Hold.
  { intros h1 Hw. by apply writes_fresh_rows with hc mc. }
  assert (wp (Matrix_add self (VRef other))
            (λ o h', o = Return c ∧
               fill_inv c mc F hc (Z.to_nat (rows_count mc)) 0 h') h) as Hwp.
  { unfold Matrix_add.
    wp_step with (by apply get_rows_count_run, Hinv).
    wp_step with (by apply get_matrix_run, Hinvo).
    rewrite decide_False by lia.
    wp_step with (by apply get_cols_count_run, Hinv).
    wp_step with (by apply get_matrix_run, Hinvo).
    rewrite decide_False by lia.
    wp_step with (exact Hcopy).
    wp_step with (eapply get_rows_count_run, writes_matrix; [exact Hwc|apply Hinv]).
    apply wp_bind. rewrite <- HRc.
    apply wp_fill with (t := c) (F := F)
      (body := λ i j,
         r <- data_row c i ;;
         x <- list_getitem r j ;;
         r' <- data_row_of (VRef other) i ;;
         y <- list_getitem r' j ;;
         list_setitem r j (add x y)).
    - done.
    - intros i h1 Hf. unfold bind.
      rewrite (get_cols_count_run _ _ m); [by rewrite HCc|].
      eapply writes_matrix; [apply Hold, Hf|apply Hinv].
    - intros i j h1 r Hi Hj Hf Hr.
      destruct (matrix_inv_cell h self m i j) as (_ & _ & x & _ & _ & _ & _ & Hx);
        [done|lia..|].
      destruct (matrix_inv_cell h other mo i j) as (_ & _ & y & _ & _ & _ & _ & Hy);
        [done|lia..|].
      exists (add x y). split; [unfold F; by rewrite Hx, Hy|].
      assert (cell h1 c i j = Some x) as Hxc.
      { rewrite (fill_todo _ _ _ _ _ _ _ Hf) by (unfold processed; lia).
        rewrite Hcells by lia. done. }
      apply (cell_kept h h1) in Hy; [|apply Hold, Hf].
      destruct (read_cell_run _ _ _ _ _ Hxc) as (r0 & Hr0 & Hgetx).
      destruct (read_cell_run _ _ _ _ _ Hy) as (r' & Hr' & Hgety).
      rewrite (data_row_nat _ _ mc _ r) in Hr0 by (done || apply Hf).
      injection Hr0 as <-. unfold bind.
      rewrite (data_row_nat _ _ mc _ r) by (done || apply Hf).
      rewrite Hgetx. fold (data_row other (Z.of_nat i)). rewrite Hr', Hgety.
      destruct (matrix_inv_row h1 c mc i) as (r'' & xs & Hr'' & Hxs & Hxlen);
        [apply Hf|done|]. simplify_eq.
      apply list_setitem_store with xs; [done|lia].
    - intros h' Hf. by apply wp_ret. }
  unfold wp in Hwp. destruct (Matrix_add self (VRef other) h) as [o h'].
  simpl in Hwp. destruct Hwp as [-> Hf].
  exists c, mc, h'. split_and!; try done.
  - apply Hf.
  - apply Hold, Hf.
  - intros i j Hi Hj.
    destruct (matrix_inv_cell h self m i j) as (_ & _ & x & _ & _ & _ & _ & Hx);
      [done|lia..|].
    destruct (matrix_inv_cell h other mo i j) as (_ & _ & y & _ & _ & _ & _ & Hy);
      [done|lia..|].
    exists x, y. split_and!; [done..|].
    rewrite (fill_done _ _ _ _ _ _ _ Hf i j); [|unfold processed; lia|lia].
    unfold F. by rewrite Hx, Hy.
Qed.

Lemma Matrix_add_mismatch h self m other mo :
  h !! self = Some (OMatrix m) → h !! other = Some (OMatrix mo) →
  rows_count m ≠ rows_count mo ∨ cols_count m ≠ cols_count mo →
  Matrix_add self (VRef other) h = (Raise (ValueError "Size mismatch"), h).
Proof.
  intros Hm Hmo Hne. unfold Matrix_add, bind. simpl.
  rewrite (get_rows_count_run _ _ m), (get_matrix_run _ _ mo) by done.
  case_decide; [done|].
  rewrite (get_cols_count_run _ _ m), (get_matrix_run _ _ mo) by done.
  case_decide; [done|]. lia.
Qed.

Lemma value_at_cell_Z h self (i j : Z) x :
  0 ≤ i → 0 ≤ j → cell h self (Z.to_nat i) (Z.to_nat j) = Some x →
  value_at self i j h = (Return x, h).
Proof.
  intros Hi Hj Hx. rewrite <- (Z2Nat.id i), <- (Z2Nat.id j) by done.
  by apply value_at_cell.
Qed.

(** C5. [a + b] raises the size-mismatch error when the row counts or the
    column counts differ; otherwise it returns a new matrix of the shape
    of [a] whose element [(i, j)] is [a.value_at(i, j) + b.value_at(i, j)].
    For [a + a] every element is [x + x], the double of the element [x]
    of [a]. *)
Theorem Matrix_add_elementwise h self m other mo :
  matrix_inv h self m → matrix_inv h other mo →
  (rows_count m ≠ rows_count mo ∨ cols_count m ≠ cols_count mo →
   Matrix_add self (VRef other) h = (Raise (ValueError "Size mismatch"), h)) ∧
  (rows_count m = rows_count mo → cols_count m = cols_count mo →
   ∃ res mres h', Matrix_add self (VRef other) h = (Return res, h') ∧
     h !! res = None ∧
     matrix_inv h' res mres ∧
     rows_count mres = rows_count m ∧ cols_count mres = cols_count m ∧
     ∀ i j, 0 ≤ i < rows_count m → 0 ≤ j < cols_count m →
       ∃ x y, value_at self i j h = (Return x, h) ∧
              value_at other i j h = (Return y, h) ∧
              value_at res i j h' = (Return (add x y), h')) ∧
  (∃ res h', Matrix_add self (VRef self) h = (Return res, h') ∧
     ∀ i j, 0 ≤ i < rows_count m → 0 ≤ j < cols_count m →
       ∃ x, value_at self i j h = (Return x, h) ∧
            value_at res i j h' = (Return (add x x), h')).
Proof.
  intros Hinv Hinvo. split_and!.
  - apply Matrix_add_mismatch; [apply Hinv|apply Hinvo].
  - intros HR HC.
    destruct (Matrix_add_run _ _ _ _ _ Hinv Hinvo HR HC)
      as (res & mres & h' & Hrun & Hnew & Hres & HRr & HCr & _ & _ & Hcells).
    exists res, mres, h'. split_and!; try done. intros i j Hi Hj.
    destruct (Hcells (Z.to_nat i) (Z.to_nat j)) as (x & y & Hx & Hy & Hxy); [lia..|].
    exists x, y. split_and!; by apply value_at_cell_Z; [lia..|].
  - destruct (Matrix_add_run _ _ _ _ _ Hinv Hinv eq_refl eq_refl)
      as (res & mres & h' & Hrun & _ & _ & _ & _ & _ & _ & Hcells).
    exists res, h'. split; [done|]. intros i j Hi Hj.
    destruct (Hcells (Z.to_nat i) (Z.to_nat j)) as (x & y & Hx & Hy & Hxy); [lia..|].
    assert (y = x) as -> by congruence.
    exists x. split; by apply value_at_cell_Z; [lia..|].
Qed.

(** ** Matrix times vector *)

Lemma row_of_cell h self i j xs :
  row_of h self i = Some xs → cell h self i j = xs !! j.
Proof.
  unfold row_of, cell. destruct (h !! self) as [[| |m]|]; try done.
  destruct (data m !! i) as [r|]; [|done].
  destruct (h !! r) as [[| |]|]; try done. by intros [= ->].
Qed.

Lemma matrix_inv_row_of h self m (i : nat) :
  matrix_inv h self m → Z.of_nat i < rows_count m →
  ∃ r xs, data m !! i = Some r ∧ h !! r = Some (OList xs) ∧
          length xs = Z.to_nat (cols_count m) ∧ row_of h self i = Some xs.
Proof.
  intros Hinv Hi.
  destruct (matrix_inv_row _ _ _ i Hinv Hi) as (r & xs & Hr & Hxs & Hlen).
  exists r, xs. split_and!; try done.
  unfold row_of. by rewrite (inv_self _ _ _ Hinv), Hr, Hxs.
Qed.

Lemma vector_value_at_nat h v items (j : nat) b :
  h !! v = Some (OVector items) → items !! j = Some b →
  vector_value_at v (Z.of_nat j) h = (Return b, h).
Proof.
  intros Hv Hb. unfold vector_value_at. rewrite Hv.
  rewrite py_getitem_nat by by eapply lookup_lt_Some. by rewrite Hb.
Qed.

Lemma vector_set_value_nat h v items (i : nat) x :
  h !! v = Some (OVector items) → (i < length items)%nat →
  vector_set_value v x (Z.of_nat i) h =
    (Return v, <[v:=OVector (<[i:=x]> items)]> h).
Proof.
  intros Hv Hi. unfold vector_set_value. rewrite Hv. by rewrite py_setitem_nat.
Qed.

Lemma vector_length_run h v items :
  h !! v = Some (OVector items) →
  vector_length v h = (Return (Z.of_nat (length items)), h).
Proof. unfold vector_length. by intros ->. Qed.

(** The inner loop accumulates the dot product of row [i] with [v]. *)
Lemma product_sum_loop h self m v (i : nat) r xs items :
  h !! self = Some (OMatrix m) → data m !! i = Some r →
  h !! r = Some (OList xs) → h !! v = Some (OVector items) →
  length xs = Z.to_nat (cols_count m) →
  length items = Z.to_nat (cols_count m) →
  for_fold (range (cols_count m)) zero (λ j product_sum,
      r <- data_row self (Z.of_nat i) ;;
      a <- list_getitem r j ;;
      b <- vector_value_at v j ;;
      ret (add product_sum (mul a b))) h =
    (Return (dot_product xs items), h).
Proof.
  intros Hm Hr Hxs Hv Hlx Hli.
  set (f := λ (acc : num) (p : num * num), add acc (mul p.1 p.2)).
  match goal with |- ?c h = _ =>
    assert (wp c (λ o h', o = Return (dot_product xs items) ∧ h' = h) h) as Hwp
  end.
  { apply wp_for_fold
      with (I := λ k s h1, h1 = h ∧ s = foldl f zero (take k (zip xs items))).
    - done.
    - intros k x s1 h1 [-> Hk]%range_lookup [-> ->].
      destruct (lookup_lt_is_Some_2 xs k) as [a Ha]; [lia|].
      destruct (lookup_lt_is_Some_2 items k) as [b Hb]; [lia|].
      eapply wp_run.
      { unfold bind. rewrite (data_row_nat _ _ m _ r) by done.
        rewrite (list_getitem_nat _ _ xs _ a) by done.
        rewrite (vector_value_at_nat _ _ items _ b) by done. done. }
      split; [done|].
      rewrite (take_S_r _ _ (a, b)) by by apply lookup_zip_Some.
      by rewrite foldl_snoc.
    - intros s' h' [-> ->]. split; [|done]. f_equal. unfold dot_product.
      rewrite take_ge; [done|].
      rewrite range_length, length_zip. lia. }
  unfold wp in Hwp. destruct (for_fold _ _ _ h) as [o h'].
  simpl in Hwp. by destruct Hwp as [-> ->].
Qed.

Lemma times_vector_mismatch h self m v items :
  h !! self = Some (OMatrix m) → h !! v = Some (OVector items) →
  cols_count m ≠ Z.of_nat (length items) →
  times_vector self v h = (Raise (ValueError "Size mismatch"), h).
Proof.
  intros Hm Hv Hne. unfold times_vector, bind.
  rewrite (get_cols_count_run _ _ m), (vector_length_run _ _ items) by done.
  by rewrite decide_True.
Qed.

Lemma times_vector_run h self m v items :
  matrix_inv h self m → h !! v = Some (OVector items) →
  cols_count m = Z.of_nat (length items) →
  ∃ ys, times_vector self v h = (Return (length h), h ++ [OVector ys]) ∧
    length ys = Z.to_nat (rows_count m) ∧
    ∀ i : nat, Z.of_nat i < rows_count m →
      ∃ row, row_of h self i = Some row ∧
             ys !! i = Some (dot_product row items).
Proof.
  intros Hinv Hv Hlen.
  pose proof (inv_self _ _ _ Hinv) as Hm.
  pose proof (inv_rows_count _ _ _ Hinv) as HR.
  set (I := λ (k : nat) (h1 : heap), ∃ ys,
         h1 = h ++ [OVector ys] ∧ length ys = Z.to_nat (rows_count m) ∧
         ∀ i : nat, (i < k)%nat →
           ∃ row, row_of h self i = Some row ∧
                  ys !! i = Some (dot_product row items)).
  assert (wp (times_vector self v)
            (λ o h', o = Return (length h) ∧ I (Z.to_nat (rows_count m)) h') h)
    as Hwp.
  { unfold times_vector.
    wp_step with (by apply get_cols_count_run).
    wp_step with (by apply vector_length_run).
    rewrite decide_False by lia.
    wp_step with (by apply get_rows_count_run).
    apply wp_bind. apply wp_alloc.
    wp_step with (by eapply get_rows_count_run, lookup_app_l_Some).
    apply wp_bind. apply wp_for_each with (I := I).
    - exists (replicate (Z.to_nat (rows_count m)) zero).
      split_and!; [done|apply length_replicate|]. intros; lia.
    - intros k x h1 [-> Hk]%range_lookup (ys & -> & Hys & Hdone).
      destruct (matrix_inv_row_of h self m k Hinv Hk)
        as (r & xs & Hr & Hxs & Hxlen & Hrow).
      wp_step with (by eapply get_cols_count_run, lookup_app_l_Some).
      apply wp_bind. eapply wp_run.
      { apply (product_sum_loop _ _ m v k r xs items);
          [by apply lookup_app_l_Some|done|by apply lookup_app_l_Some
          |by apply lookup_app_l_Some|done|lia]. }
      cbn beta iota.
      apply wp_bind. eapply wp_run.
      { apply (vector_set_value_nat _ _ ys); [|lia].
        by rewrite lookup_app_r, Nat.sub_diag. }
      cbn beta iota. apply wp_ret.
      exists (<[k:=dot_product xs items]> ys). split_and!.
      + rewrite insert_app_r_alt, Nat.sub_diag by done. done.
      + by rewrite length_insert.
      + intros i Hi. destruct (decide (i = k)) as [->|Hne].
        * exists xs. split; [done|]. apply list_lookup_insert_eq. lia.
        * destruct (Hdone i) as (row & ? & ?); [lia|].
          exists row. split; [done|]. by rewrite list_lookup_insert_ne.
    - intros h'. rewrite range_length. intros HI. by apply wp_ret. }
  unfold wp in Hwp. destruct (times_vector self v h) as [o h'].
  simpl in Hwp. destruct Hwp as [-> (ys & -> & Hys & Hdone)].
  exists ys. split_and!; [done..|]. intros i Hi. apply Hdone. lia.
Qed.

(** C1. [times_vector(v)] raises the size-mismatch error exactly when
    [cols_count != v.length]; otherwise it returns a new vector of length
    [rows_count] whose element [i] is the dot product of row [i] with [v]. *)
Theorem times_vector_dot_products h self m v items :
  matrix_inv h self m → h !! v = Some (OVector items) →
  (cols_count m ≠ Z.of_nat (length items) →
   times_vector self v h = (Raise (ValueError "Size mismatch"), h)) ∧
  (cols_count m = Z.of_nat (length items) →
   ∃ res h', times_vector self v h = (Return res, h') ∧
     h !! res = None ∧
     vector_length res h' = (Return (rows_count m), h') ∧
     ∀ i, 0 ≤ i < rows_count m →
       ∃ row, row_of h self (Z.to_nat i) = Some row ∧
         (∀ j, 0 ≤ j < cols_count m →
            ∃ x, row !! Z.to_nat j = Some x ∧
                 value_at self i j h = (Return x, h)) ∧
         vector_value_at res i h' = (Return (dot_product row items), h')).
Proof.
  intros Hinv Hv. split.
  - apply times_vector_mismatch; [apply Hinv|done].
  - intros Hlen.
    destruct (times_vector_run _ _ _ _ _ Hinv Hv Hlen) as (ys & Hrun & Hys & Hdot).
    pose proof (inv_rows_count _ _ _ Hinv) as HR.
    assert ((h ++ [OVector ys]) !! length h = Some (OVector ys)) as Hres
      by by rewrite lookup_app_r, Nat.sub_diag.
    exists (length h), (h ++ [OVector ys]). split_and!; [done| | |].
    + by apply lookup_ge_None.
    + rewrite (vector_length_run _ _ ys) by done. do 2 f_equal. lia.
    + intros i Hi. destruct (Hdot (Z.to_nat i)) as (row & Hrow & Hyi); [lia|].
      exists row. split_and!; [done| |].
      * intros j Hj.
        destruct (matrix_inv_cell h self m (Z.to_nat i) (Z.to_nat j))
          as (_ & _ & x & _ & _ & _ & _ & Hx); [done|lia..|].
        exists x. split; [by rewrite <- (row_of_cell _ _ _ _ _ Hrow)|].
        apply value_at_cell_Z; [lia..|done].
      * rewrite <- (Z2Nat.id i) by lia.
        by apply (vector_value_at_nat _ _ ys).
Qed.

(** ** Equality *)

Lemma Matrix_eq_same h self : Matrix_eq self (VRef self) h = (Return true, h).
Proof. unfold Matrix_eq. simpl. by rewrite bool_decide_eq_true_2. Qed.

Lemma Matrix_eq_not_matrix h self m other :
  h !! self = Some (OMatrix m) →
  (∀ o mo, other = VRef o → h !! o ≠ Some (OMatrix mo)) →
  Matrix_eq self other h = (Return false, h).
Proof.
  intros Hm Hother. unfold Matrix_eq.
  destruct other as [| |x|o]; simpl; [done..|].
  case_bool_decide as Hsame; unfold bind, isinstance_Matrix.
  - subst o. exfalso. by eapply Hother.
  - destruct (h !! o) as [[| |mo]|] eqn:Ho;
      first [done|exfalso; by eapply Hother].
Qed.

Lemma Matrix_eq_shape h self m o mo :
  h !! self = Some (OMatrix m) → h !! o = Some (OMatrix mo) → o ≠ self →
  rows_count m ≠ rows_count mo ∨ cols_count m ≠ cols_count mo →
  Matrix_eq self (VRef o) h = (Return false, h).
Proof.
  intros Hm Hmo Hne Hshape. unfold Matrix_eq. simpl.
  rewrite bool_decide_eq_false_2 by done.
  unfold bind, isinstance_Matrix. rewrite Hmo. simpl.
  rewrite (get_rows_count_run _ _ m), (get_matrix_run _ _ mo) by done.
  case_decide; [done|].
  rewrite (get_cols_count_run _ _ m), (get_matrix_run _ _ mo) by done.
  case_decide; [done|]. lia.
Qed.

Lemma Matrix_eq_scan h self m o mo :
  matrix_inv h self m → matrix_inv h o mo → o ≠ self →
  rows_count m = rows_count mo → cols_count m = cols_count mo →
  ∃ b, Matrix_eq self (VRef o) h = (Return b, h) ∧
    (b = true ↔
     ∀ i j : nat, Z.of_nat i < rows_count m → Z.of_nat j < cols_count m →
       close_at h self o i j).
Proof.
  intros Hinv Hinvo Hne HR HC.
  pose proof (inv_self _ _ _ Hinv) as Hm.
  pose proof (inv_self _ _ _ Hinvo) as Hmo.
  set (all_close := ∀ i j : nat,
         Z.of_nat i < rows_count m → Z.of_nat j < cols_count m →
         close_at h self o i j).
  set (Qscan := λ (r : outcome (option bool)) (h' : heap),
         h' = h ∧ match r with
                  | Return None => all_close
                  | Return (Some b) => b = false ∧ ¬ all_close
                  | Raise _ => False
                  end).
  assert (wp (Matrix_eq self (VRef o))
            (λ r h', h' = h ∧ ∃ b, r = Return b ∧ (b = true ↔ all_close)) h)
    as Hwp.
  { unfold Matrix_eq. simpl. rewrite bool_decide_eq_false_2 by done.
    wp_step with (unfold isinstance_Matrix; by rewrite Hmo).
    simpl.
    wp_step with (by apply get_rows_count_run).
    wp_step with (by apply get_matrix_run).
    rewrite decide_False by lia.
    wp_step with (by apply get_cols_count_run).
    wp_step with (by apply get_matrix_run).
    rewrite decide_False by lia.
    wp_step with (by apply get_rows_count_run).
    apply wp_bind.
    eapply wp_mono with (Q := Qscan).
    - apply wp_for_return with
        (I := λ k h1, h1 = h ∧
                ∀ i j : nat, (i < k)%nat → Z.of_nat j < cols_count m →
                  close_at h self o i j).
      + split; [done|]. intros; lia.
      + intros k x h1 [-> Hk]%range_lookup [-> Hrows].
        wp_step with (by apply get_cols_count_run).
        apply wp_for_return with
          (I := λ j h1, h1 = h ∧
                  ∀ i' j' : nat, processed k j i' j' →
                    Z.of_nat j' < cols_count m → close_at h self o i' j').
        * split; [done|]. intros i' j' [?|[_ ?]] ?; [auto|lia].
        * intros j y h2 [-> Hj]%range_lookup [-> Hdone].
          destruct (matrix_inv_cell h self m k j)
            as (_ & _ & x & _ & _ & _ & _ & Hx); [done|lia..|].
          destruct (matrix_inv_cell h o mo k j)
            as (_ & _ & y & _ & _ & _ & _ & Hy); [done|lia..|].
          destruct (read_cell_run _ _ _ _ _ Hx) as (r & Hr & Hgetx).
          destruct (read_cell_run _ _ _ _ _ Hy) as (r' & Hr' & Hgety).
          wp_step with (exact Hr).
          wp_step with (exact Hgetx).
          wp_step with (exact Hr').
          wp_step with (exact Hgety).
          destruct (are_close_enough x y) eqn:Hclose; simpl; apply wp_ret.
          -- split; [done|]. intros i' j' Hp Hj'.
             destruct (decide (i' = k ∧ j' = j)) as [[-> ->]|Hother].
             ++ by exists x, y.
             ++ apply Hdone; [|done]. unfold processed in *. lia.
          -- split; [done|]. split; [done|]. intros Hall.
             destruct (Hall k j) as (x' & y' & Hx' & Hy' & Hclose'); [lia..|].
             congruence.
        * intros h2. rewrite range_length. intros [-> Hdone].
          split; [done|]. intros i j Hi Hj. apply Hdone; [|done].
          unfold processed. lia.
      + intros h'. rewrite range_length. intros [-> Hrows].
        split; [done|]. intros i j Hi Hj. apply Hrows; [lia|done].
    - intros [[[|]|]|e] h' [-> Hres]; simpl; try done.
      + destruct Hres as [[=] _].
      + destruct Hres as [_ Hres]. apply wp_ret. split; [done|].
        exists false. split; [done|]. split; [done|]. intros. by exfalso.
      + apply wp_ret. split; [done|]. exists true. done. }
  unfold wp in Hwp. destruct (Matrix_eq self (VRef o) h) as [r h'].
  simpl in Hwp. destruct Hwp as [-> (b & -> & Hb)]. by exists b.
Qed.

Lemma close_at_value_at h self m o mo (i j : Z) :
  matrix_inv h self m → matrix_inv h o mo →
  rows_count m = rows_count mo → cols_count m = cols_count mo →
  0 ≤ i < rows_count m → 0 ≤ j < cols_count m →
  close_at h self o (Z.to_nat i) (Z.to_nat j) ↔
  ∃ x y, value_at self i j h = (Return x, h) ∧
         value_at o i j h = (Return y, h) ∧
         are_close_enough x y = true.
Proof.
  intros Hinv Hinvo HR HC Hi Hj. split.
  - intros (x & y & Hx & Hy & Hclose). exists x, y.
    split_and!; [by apply value_at_cell_Z; [lia..|]..|done].
  - intros (x & y & Hx & Hy & Hclose).
    destruct (matrix_inv_cell h self m (Z.to_nat i) (Z.to_nat j))
      as (_ & _ & x' & _ & _ & _ & _ & Hx'); [done|lia..|].
    destruct (matrix_inv_cell h o mo (Z.to_nat i) (Z.to_nat j))
      as (_ & _ & y' & _ & _ & _ & _ & Hy'); [done|lia..|].
    exists x', y'. split_and!; [done..|].
    rewrite (value_at_cell_Z _ _ _ _ x') in Hx by (lia || done).
    rewrite (value_at_cell_Z _ _ _ _ y') in Hy by (lia || done).
    congruence.
Qed.

(** C4. [a == b] is [True] when [b] is [a] itself, [False] when [b] is not
    a matrix, [False] when the shapes differ, and otherwise [True] exactly
    when [are_close_enough] accepts every pair of corresponding elements.
    The comparison changes nothing. *)
Theorem Matrix_eq_cases h self m (other : value) :
  matrix_inv h self m →
  (other = VRef self → Matrix_eq self other h = (Return true, h)) ∧
  ((∀ o mo, other = VRef o → h !! o ≠ Some (OMatrix mo)) →
   Matrix_eq self other h = (Return false, h)) ∧
  (∀ o mo, other = VRef o → o ≠ self → matrix_inv h o mo →
     (rows_count m ≠ rows_count mo ∨ cols_count m ≠ cols_count mo →
      Matrix_eq self other h = (Return false, h)) ∧
     (rows_count m = rows_count mo → cols_count m = cols_count mo →
      ∃ b, Matrix_eq self other h = (Return b, h) ∧
        (b = true ↔
         ∀ i j, 0 ≤ i < rows_count m → 0 ≤ j < cols_count m →
           ∃ x y, value_at self i j h = (Return x, h) ∧
                  value_at o i j h = (Return y, h) ∧
                  are_close_enough x y = true))).
Proof.
  intros Hinv. split_and!.
  - intros ->. apply Matrix_eq_same.
  - apply Matrix_eq_not_matrix with m, Hinv.
  - intros o mo -> Hne Hinvo. split.
    + apply Matrix_eq_shape; [apply Hinv|apply Hinvo|done].
    + intros HR HC.
      destruct (Matrix_eq_scan _ _ _ _ _ Hinv Hinvo Hne HR HC) as (b & Hrun & Hb).
      exists b. split; [done|]. rewrite Hb. split.
      * intros Hall i j Hi Hj.
        apply (close_at_value_at h self m o mo); [done..|]. apply Hall; lia.
      * intros Hall i j Hi Hj.
        rewrite <- (Nat2Z.id i), <- (Nat2Z.id j).
        apply (close_at_value_at h self m o mo); [done..|lia|lia|].
        apply Hall; lia.
Qed.

(** ** Transposed reads *)

(** C8. After any sequence of mutations, [value_transposed_at(i, j)] and
    [value_at(j, i)] return the same element for every valid [(i, j)], and
    the read changes nothing: no object is created. *)
Theorem value_transposed_at_value_at h self m (μs : list mutation) i j :
  matrix_inv h self m →
  0 ≤ i < cols_count m → 0 ≤ j < rows_count m →
  let h' := mutate_all self μs h in
  ∃ x, value_transposed_at self i j h' = (Return x, h') ∧
       value_at self j i h' = (Return x, h').
Proof.
  intros Hinv Hi Hj h'.
  pose proof (mutate_all_matrix_inv h self m μs Hinv) as Hinv'.
  destruct (value_at_in_range h' self m j i) as [x Hx]; [done|lia..|].
  by exists x.
Qed.

(** ** Operations that derive a new value *)

Lemma writes_nothing h h' :
  writes (λ _, False) h h' → ∀ l o, h !! l = Some o → h' !! l = Some o.
Proof. intros Hw l o Hl. by eapply writes_unchanged; [done..|intros []]. Qed.

(** What [value_at] does depends on the matrix and its rows only. *)
Lemma value_at_preserved h h' self m row col :
  matrix_inv h self m →
  (∀ l o, h !! l = Some o → h' !! l = Some o) →
  value_at self row col h' = ((value_at self row col h).1, h').
Proof.
  intros Hinv Hkeep. unfold value_at, bind.
  rewrite (data_row_run h' _ m) by apply Hkeep, Hinv.
  rewrite (data_row_run h _ m) by apply Hinv.
  destruct (py_getitem (data m) row) as [r|] eqn:Hr; [|done].
  pose proof (inv_rows _ _ _ Hinv) as Hrows. rewrite Forall_forall in Hrows.
  destruct (Hrows r) as (xs & Hxs & _); [by eapply py_getitem_elem_of|].
  unfold list_getitem. rewrite (Hkeep _ _ Hxs), Hxs.
  by destruct (py_getitem xs col).
Qed.

(** C9. [copy], [+] and [times_vector] leave every object that existed
    before the call as it was. [copy] returns a new matrix of the same
    shape and elements whose rows are new lists: whatever mutations are
    applied to the copy, the source reads as before. *)
Theorem derived_operations_preserve_inputs h self m :
  matrix_inv h self m →
  (∃ c mc h', copy self h = (Return c, h') ∧
     h !! c = None ∧
     matrix_inv h' c mc ∧
     rows_count mc = rows_count m ∧ cols_count mc = cols_count m ∧
     (∀ r, r ∈ data mc → h !! r = None) ∧
     (∀ l o, h !! l = Some o → h' !! l = Some o) ∧
     (∀ i j, 0 ≤ i < rows_count m → 0 ≤ j < cols_count m →
        ∃ x, value_at self i j h = (Return x, h) ∧
             value_at c i j h' = (Return x, h')) ∧
     (∀ μs : list mutation,
        let h'' := mutate_all c μs h' in
        (∀ l o, h !! l = Some o → h'' !! l = Some o) ∧
        ∀ row col, value_at self row col h'' = ((value_at self row col h).1, h''))) ∧
  (∀ other mo, matrix_inv h other mo →
     ∀ l o, h !! l = Some o → (Matrix_add self (VRef other) h).2 !! l = Some o) ∧
  (∀ v items, h !! v = Some (OVector items) →
     ∀ l o, h !! l = Some o → (times_vector self v h).2 !! l = Some o).
Proof.
  intros Hinv. split_and!.
  - destruct (copy_run _ _ _ Hinv)
      as (c & mc & h' & Hcopy & Hnew & Hc & HRc & HCc & Hfresh & Hw & Hcells).
    exists c, mc, h'. split_and!; try done.
    + by apply writes_nothing.
    + intros i j Hi Hj.
      destruct (matrix_inv_cell h self m (Z.to_nat i) (Z.to_nat j))
        as (_ & _ & x & _ & _ & _ & _ & Hx); [done|lia..|].
      exists x. split; apply value_at_cell_Z; try lia; [done|].
      rewrite Hcells by lia. done.
    + intros μs h''.
      assert (writes (λ _, False) h h'') as Hw''.
      { apply writes_fresh_rows with h' mc; [done| |done].
        apply mutate_all_writes, Hc. }
      split; [by apply writes_nothing|]. intros row col.
      apply value_at_preserved with m; [done|]. by apply writes_nothing.
  - intros other mo Hinvo.
    destruct (decide (rows_count m = rows_count mo ∧ cols_count m = cols_count mo))
      as [[HR HC]|Hne].
    + destruct (Matrix_add_run _ _ _ _ _ Hinv Hinvo HR HC)
        as (res & mres & h' & -> & _ & _ & _ & _ & _ & Hw & _).
      by apply writes_nothing.
    + rewrite (Matrix_add_mismatch _ _ m _ mo);
        [done|apply Hinv|apply Hinvo|lia].
  - intros v items Hv.
    destruct (decide (cols_count m = Z.of_nat (length items))) as [Hlen|Hne].
    + destruct (times_vector_run _ _ _ _ _ Hinv Hv Hlen) as (ys & -> & _).
      intros l o Hl. by apply lookup_app_l_Some.
    + rewrite (times_vector_mismatch _ _ m _ items); [done|apply Hinv|done..].
Qed.

(** ** Further properties of the accessors and mutators *)

(** An index in [-len, len) addresses position [i mod len]. *)
Lemma py_index_mod (len : nat) (i : Z) :
  - Z.of_nat len ≤ i < Z.of_nat len →
  py_index len i = Some (Z.to_nat (i mod Z.of_nat len)).
Proof.
  intros Hi. unfold py_index. case_decide.
  - by rewrite Z.mod_small.
  - rewrite decide_True by lia. do 2 f_equal.
    apply (Z.mod_unique _ _ (-1)); lia.
Qed.

Lemma list_getitem_mod h r xs col :
  h !! r = Some (OList xs) →
  - Z.of_nat (length xs) ≤ col < Z.of_nat (length xs) →
  ∃ y, xs !! Z.to_nat (col mod Z.of_nat (length xs)) = Some y ∧
       list_getitem r col h = (Return y, h).
Proof.
  intros Hr Hcol. unfold list_getitem, py_getitem. rewrite Hr.
  rewrite py_index_mod by done. simpl.
  destruct (lookup_lt_is_Some_2 xs (Z.to_nat (col mod Z.of_nat (length xs))))
    as [y Hy].
  { pose proof (Z.mod_pos_bound col (Z.of_nat (length xs))). lia. }
  exists y. by rewrite Hy.
Qed.

Lemma list_setitem_mod h r xs col x :
  h !! r = Some (OList xs) →
  - Z.of_nat (length xs) ≤ col < Z.of_nat (length xs) →
  list_setitem r col x h =
    (Return (), store_item h r (Z.to_nat (col mod Z.of_nat (length xs))) x).
Proof.
  intros Hr Hcol. unfold list_setitem, py_setitem, store_item. rewrite Hr.
  by rewrite py_index_mod by done.
Qed.

(** Row [row] of a matrix, for [row] in [-rows_count, rows_count). *)
Lemma data_row_mod h self m row :
  matrix_inv h self m →
  - rows_count m ≤ row < rows_count m →
  ∃ r xs, data m !! Z.to_nat (row mod rows_count m) = Some r ∧
          h !! r = Some (OList xs) ∧
          Z.of_nat (length xs) = cols_count m ∧
          data_row self row h = (Return r, h).
Proof.
  intros Hinv Hrow.
  pose proof (inv_rows_count _ _ _ Hinv) as HR.
  pose proof (inv_cols_count _ _ _ Hinv) as HC.
  pose proof (Z.mod_pos_bound row (rows_count m)) as Hmod.
  destruct (matrix_inv_row h self m (Z.to_nat (row mod rows_count m)) Hinv)
    as (r & xs & Hr & Hxs & Hlen); [lia|].
  exists r, xs. split_and!; [done..|lia|].
  rewrite (data_row_run _ _ m) by apply Hinv.
  unfold py_getitem. rewrite py_index_mod by lia. simpl.
  by rewrite <- HR, Hr.
Qed.

(** [value_at] with indices in range reads the cell at
    [(row mod rows_count, col mod cols_count)]. *)
Lemma value_at_mod h self m row col :
  matrix_inv h self m →
  - rows_count m ≤ row < rows_count m →
  - cols_count m ≤ col < cols_count m →
  ∃ y, cell h self (Z.to_nat (row mod rows_count m))
                   (Z.to_nat (col mod cols_count m)) = Some y ∧
       value_at self row col h = (Return y, h).
Proof.
  intros Hinv Hrow Hcol.
  destruct (data_row_mod _ _ _ _ Hinv Hrow) as (r & xs & Hr & Hxs & Hlen & Hrun).
  destruct (list_getitem_mod h r xs col Hxs) as (y & Hy & Hget); [lia|].
  exists y. split.
  - unfold cell. rewrite (inv_self _ _ _ Hinv), Hr, Hxs. by rewrite <- Hlen.
  - unfold value_at, bind. by rewrite Hrun.
Qed.

(** Storing [x] at [(row, col)], both in range, through the row list. *)
Lemma store_at_mod h self m row col x :
  matrix_inv h self m →
  - rows_count m ≤ row < rows_count m →
  - cols_count m ≤ col < cols_count m →
  ∃ r h', data_row self row h = (Return r, h) ∧
    list_setitem r col x h = (Return (), h') ∧
    matrix_inv h' self m ∧
    ∀ i j, cell h' self i j =
      if decide (i = Z.to_nat (row mod rows_count m) ∧
                 j = Z.to_nat (col mod cols_count m))
      then Some x else cell h self i j.
Proof.
  intros Hinv Hrow Hcol.
  destruct (data_row_mod _ _ _ _ Hinv Hrow) as (r & xs & Hr & Hxs & Hlen & Hrun).
  pose proof (Z.mod_pos_bound col (cols_count m)) as Hmod.
  exists r, (store_item h r (Z.to_nat (col mod cols_count m)) x).
  split_and!; [done| |by apply matrix_inv_store|].
  - rewrite (list_setitem_mod _ _ xs) by (done || lia). by rewrite Hlen.
  - intros i j. apply cell_store_item with m; [done..|lia].
Qed.

(** Two heaps that hold the same number in a cell give the same
    [value_at] there. *)
Lemma value_at_same_cell h h' self m i j :
  matrix_inv h self m → matrix_inv h' self m →
  0 ≤ i < rows_count m → 0 ≤ j < cols_count m →
  cell h' self (Z.to_nat i) (Z.to_nat j) = cell h self (Z.to_nat i) (Z.to_nat j) →
  value_at self i j h' = ((value_at self i j h).1, h').
Proof.
  intros Hinv Hinv' Hi Hj Heq.
  destruct (matrix_inv_cell h self m (Z.to_nat i) (Z.to_nat j))
    as (_ & _ & y & _ & _ & _ & _ & Hy); [done|lia..|].
  rewrite (value_at_cell_Z h _ _ _ y) by (lia || done).
  apply value_at_cell_Z; [lia..|]. by rewrite Heq.
Qed.

(** X1. [set_value(value, row, col)] with indices in range returns the
    matrix itself; afterwards [value_at(row, col)] is [value] and every
    other position reads as before. *)
Theorem set_value_then_value_at h self m value row col :
  matrix_inv h self m →
  - rows_count m ≤ row < rows_count m →
  - cols_count m ≤ col < cols_count m →
  ∃ h', set_value self value row col h = (Return self, h') ∧
    matrix_inv h' self m ∧
    value_at self row col h' = (Return value, h') ∧
    ∀ i j, 0 ≤ i < rows_count m → 0 ≤ j < cols_count m →
      i ≠ row mod rows_count m ∨ j ≠ col mod cols_count m →
      value_at self i j h' = ((value_at self i j h).1, h').
Proof.
  intros Hinv Hrow Hcol.
  destruct (store_at_mod h self m row col value Hinv Hrow Hcol)
    as (r & h' & Hr & Hset & Hinv' & Hcells).
  exists h'. split_and!; [|done| |].
  - unfold set_value, bind. by rewrite Hr, Hset.
  - destruct (value_at_mod h' self m row col Hinv' Hrow Hcol) as (y & Hy & ->).
    rewrite Hcells, decide_True in Hy by done. by simplify_eq.
  - intros i j Hi Hj Hne. apply value_at_same_cell with m; [done..|].
    rewrite Hcells. apply decide_False.
    pose proof (Z.mod_pos_bound row (rows_count m)).
    pose proof (Z.mod_pos_bound col (cols_count m)). lia.
Qed.

(** X2. [add_to_value(amount, row, col)] with indices in range returns the
    matrix itself; the element [x] at [(row, col)] becomes [x + amount] and
    every other position reads as before. *)
Theorem add_to_value_accumulates h self m amount row col :
  matrix_inv h self m →
  - rows_count m ≤ row < rows_count m →
  - cols_count m ≤ col < cols_count m →
  ∃ x h', value_at self row col h = (Return x, h) ∧
    add_to_value self amount row col h = (Return self, h') ∧
    matrix_inv h' self m ∧
    value_at self row col h' = (Return (add x amount), h') ∧
    ∀ i j, 0 ≤ i < rows_count m → 0 ≤ j < cols_count m →
      i ≠ row mod rows_count m ∨ j ≠ col mod cols_count m →
      value_at self i j h' = ((value_at self i j h).1, h').
Proof.
  intros Hinv Hrow Hcol.
  destruct (value_at_mod h self m row col Hinv Hrow Hcol) as (x & Hx & Hget).
  destruct (store_at_mod h self m row col (add x amount) Hinv Hrow Hcol)
    as (r & h' & Hr & Hset & Hinv' & Hcells).
  exists x, h'. split_and!; [done| |done| |].
  - unfold value_at, bind in Hget. rewrite Hr in Hget.
    unfold add_to_value, bind. by rewrite Hr, Hget, Hset.
  - destruct (value_at_mod h' self m row col Hinv' Hrow Hcol) as (y & Hy & ->).
    rewrite Hcells, decide_True in Hy by done. by simplify_eq.
  - intros i j Hi Hj Hne. apply value_at_same_cell with m; [done..|].
    rewrite Hcells. apply decide_False.
    pose proof (Z.mod_pos_bound row (rows_count m)).
    pose proof (Z.mod_pos_bound col (cols_count m)). lia.
Qed.

(** X3. Negative indices count from the end: for a valid position
    [(i, j)], [value_at(i - rows_count, j - cols_count)],
    [value_at(i - rows_count, j)] and [value_at(i, j - cols_count)] all
    return what [value_at(i, j)] returns. *)
Theorem value_at_negative_index h self m i j :
  matrix_inv h self m →
  0 ≤ i < rows_count m → 0 ≤ j < cols_count m →
  ∃ x, value_at self i j h = (Return x, h) ∧
       value_at self (i - rows_count m) (j - cols_count m) h = (Return x, h) ∧
       value_at self (i - rows_count m) j h = (Return x, h) ∧
       value_at self i (j - cols_count m) h = (Return x, h).
Proof.
  intros Hinv Hi Hj.
  assert (∀ row col, row mod rows_count m = i → col mod cols_count m = j →
            - rows_count m ≤ row < rows_count m →
            - cols_count m ≤ col < cols_count m →
            ∃ x, cell h self (Z.to_nat i) (Z.to_nat j) = Some x ∧
                 value_at self row col h = (Return x, h)) as Hread.
  { intros row col <- <- Hrow Hcol. by apply value_at_mod. }
  assert (∀ n k, 0 ≤ k < n → (k - n) mod n = k) as Hneg.
  { intros n k Hk. symmetry. apply (Z.mod_unique _ _ (-1)); lia. }
  destruct (Hread i j) as (x & Hx & Hv); [by apply Z.mod_small..|lia|lia|].
  exists x. split; [done|].
  split_and!.
  - destruct (Hread (i - rows_count m) (j - cols_count m)) as (x' & Hx' & ->);
      [by apply Hneg..|lia|lia|]. congruence.
  - destruct (Hread (i - rows_count m) j) as (x' & Hx' & ->);
      [by apply Hneg|by apply Z.mod_small|lia|lia|]. congruence.
  - destruct (Hread i (j - cols_count m)) as (x' & Hx' & ->);
      [by apply Z.mod_small|by apply Hneg|lia|lia|]. congruence.
Qed.

(** The cells after [set_identity_row(row)], [row] in range. *)
Lemma set_identity_row_cells h self m row :
  matrix_inv h self m →
  - rows_count m ≤ row < rows_count m →
  ∃ h', set_identity_row self row h = (Return self, h') ∧
    matrix_inv h' self m ∧
    ∀ i j : nat, cell h' self i j =
      if decide (i = Z.to_nat (row mod rows_count m) ∧ Z.of_nat j < cols_count m)
      then Some (if decide (row = Z.of_nat j) then one else zero)
      else cell h self i j.
Proof.
  intros Hinv Hrow.
  pose proof (inv_cols_count _ _ _ Hinv) as HC.
  set (i0 := Z.to_nat (row mod rows_count m)).
  set (I := λ (k : nat) (h1 : heap),
         matrix_inv h1 self m ∧
         ∀ i j : nat, cell h1 self i j =
           if decide (i = i0 ∧ (j < k)%nat)
           then Some (if decide (row = Z.of_nat j) then one else zero)
           else cell h self i j).
  assert (wp (set_identity_row self row)
            (λ o h', o = Return self ∧ I (Z.to_nat (cols_count m)) h') h) as Hwp.
  { unfold set_identity_row.
    wp_step with (by apply get_cols_count_run, Hinv).
    apply wp_bind. apply wp_for_each with (I := I).
    - split; [done|]. intros i j. by rewrite decide_False by lia.
    - intros k x h1 [-> Hk]%range_lookup [Hinv1 Hcells].
      destruct (data_row_mod _ _ _ _ Hinv1 Hrow) as (r & xs & Hr & Hxs & Hlen & Hrun).
      wp_step with (exact Hrun).
      eapply wp_run; [apply (list_setitem_store _ _ xs); [done|lia]|].
      split; [by apply matrix_inv_store|].
      intros i j. rewrite (cell_store_item _ _ m i0 k) by done.
      rewrite Hcells.
      repeat case_decide; try done; try lia; by destruct_and!; subst.
    - intros h'. rewrite range_length. intros HI. by apply wp_ret. }
  unfold wp in Hwp. destruct (set_identity_row self row h) as [o h'].
  simpl in Hwp. destruct Hwp as [-> [Hinv' Hcells]].
  exists h'. split_and!; [done..|]. intros i j. rewrite Hcells.
  subst i0. repeat case_decide; try done; lia.
Qed.

(** X4. [set_identity_row(row)] with [row] in range returns the matrix
    itself; afterwards [value_at(row, j)] is [1] when [row == j] and [0]
    otherwise, for every column [j], and every other row reads as before.
    The comparison is with the index as given: for a negative [row] the
    whole row becomes zero. *)
Theorem set_identity_row_effect h self m row :
  matrix_inv h self m →
  - rows_count m ≤ row < rows_count m →
  ∃ h', set_identity_row self row h = (Return self, h') ∧
    matrix_inv h' self m ∧
    (∀ j, 0 ≤ j < cols_count m →
       value_at self row j h' =
         (Return (if decide (row = j) then one else zero), h')) ∧
    (∀ i j, 0 ≤ i < rows_count m → 0 ≤ j < cols_count m →
       i ≠ row mod rows_count m →
       value_at self i j h' = ((value_at self i j h).1, h')).
Proof.
  intros Hinv Hrow.
  pose proof (Z.mod_pos_bound row (rows_count m)) as Hmod.
  destruct (set_identity_row_cells h self m row Hinv Hrow)
    as (h' & Hrun & Hinv' & Hcells).
  exists h'. split_and!; [done..| |].
  - intros j Hj.
    destruct (value_at_mod h' self m row j Hinv' Hrow) as (y & Hy & ->); [lia|].
    rewrite (Z.mod_small j) in Hy by done.
    rewrite Hcells, decide_True, Z2Nat.id in Hy by lia. by simplify_eq.
  - intros i j Hi Hj Hne. apply value_at_same_cell with m; [done..|].
    rewrite Hcells. apply decide_False. lia.
Qed.

(** X5. [set_identity_col(col)] with [col] in range returns the matrix
    itself; afterwards [value_at(i, col)] is [1] when [i == col] and [0]
    otherwise, for every row [i], and every other column reads as before.
    For a negative [col] the whole column becomes zero. *)
Theorem set_identity_col_effect h self m col :
  matrix_inv h self m →
  - cols_count m ≤ col < cols_count m →
  ∃ h', set_identity_col self col h = (Return self, h') ∧
    matrix_inv h' self m ∧
    (∀ i, 0 ≤ i < rows_count m →
       value_at self i col h' =
         (Return (if decide (i = col) then one else zero), h')) ∧
    (∀ i j, 0 ≤ i < rows_count m → 0 ≤ j < cols_count m →
       j ≠ col mod cols_count m →
       value_at self i j h' = ((value_at self i j h).1, h')).
Proof.
  intros Hinv Hcol.
  pose proof (inv_rows_count _ _ _ Hinv) as HR.
  pose proof (Z.mod_pos_bound col (cols_count m)) as Hmod.
  set (j0 := Z.to_nat (col mod cols_count m)).
  set (I := λ (k : nat) (h1 : heap),
         matrix_inv h1 self m ∧
         ∀ i j : nat, cell h1 self i j =
           if decide (j = j0 ∧ (i < k)%nat)
           then Some (if decide (Z.of_nat i = col) then one else zero)
           else cell h self i j).
  assert (wp (set_identity_col self col)
            (λ o h', o = Return self ∧ I (Z.to_nat (rows_count m)) h') h) as Hwp.
  { unfold set_identity_col.
    wp_step with (by apply get_rows_count_run, Hinv).
    apply wp_bind. apply wp_for_each with (I := I).
    - split; [done|]. intros i j. by rewrite decide_False by lia.
    - intros k x h1 [-> Hk]%range_lookup [Hinv1 Hcells].
      destruct (matrix_inv_row h1 self m k Hinv1 Hk) as (r & xs & Hr & Hxs & Hlen).
      wp_step with (apply (data_row_nat _ _ m); [apply Hinv1|done]).
      eapply wp_run.
      { rewrite (list_setitem_mod _ _ xs) by (done || lia).
        by replace (Z.of_nat (length xs)) with (cols_count m) by lia. }
      fold j0. split; [by apply matrix_inv_store|].
      intros i j. rewrite (cell_store_item _ _ m k j0) by (done || lia).
      rewrite Hcells.
      repeat case_decide; try done; try lia; by destruct_and!; subst.
    - intros h'. rewrite range_length. intros HI. by apply wp_ret. }
  unfold wp in Hwp. destruct (set_identity_col self col h) as [o h'].
  simpl in Hwp. destruct Hwp as [-> [Hinv' Hcells]].
  exists h'. split_and!; [done..| |].
  - intros i Hi.
    destruct (value_at_mod h' self m i col Hinv') as (y & Hy & ->); [lia|done|].
    fold j0 in Hy. rewrite Z.mod_small in Hy by done.
    rewrite Hcells, decide_True, Z2Nat.id in Hy by lia. by simplify_eq.
  - intros i j Hi Hj Hne. apply value_at_same_cell with m; [done..|].
    rewrite Hcells. apply decide_False. lia.
Qed.

(** X6. [scale(factor)] returns the matrix itself and replaces every
    element [x] by [x * factor]; the shape is kept. *)
Theorem scale_multiplies_elements h self m factor :
  matrix_inv h self m →
  ∃ h', scale self factor h = (Return self, h') ∧
    matrix_inv h' self m ∧
    ∀ i j, 0 ≤ i < rows_count m → 0 ≤ j < cols_count m →
      ∃ x, value_at self i j h = (Return x, h) ∧
           value_at self i j h' = (Return (mul x factor), h').
Proof.
  intros Hinv.
  set (F := λ i j : nat, (λ x, mul x factor) <$> cell h self i j).
  assert (wp (scale self factor)
            (λ o h', o = Return self ∧
               fill_inv self m F h (Z.to_nat (rows_count m)) 0 h') h) as Hwp.
  { unfold scale.
    wp_step with (by apply get_rows_count_run, Hinv).
    apply wp_bind.
    apply wp_fill with (t := self) (F := F)
      (body := λ i j,
         r <- data_row self i ;;
         x <- list_getitem r j ;;
         list_setitem r j (mul x factor)).
    - done.
    - intros i h1 Hf. unfold bind.
      by rewrite (get_cols_count_run _ _ m) by apply Hf.
    - intros i j h1 r Hi Hj Hf Hr.
      destruct (matrix_inv_cell h self m i j Hinv Hi Hj)
        as (_ & _ & x & _ & _ & _ & _ & Hx).
      exists (mul x factor). split; [unfold F; by rewrite Hx|].
      assert (cell h1 self i j = Some x) as Hx1.
      { rewrite (fill_todo _ _ _ _ _ _ _ Hf) by (unfold processed; lia). done. }
      destruct (read_cell_run _ _ _ _ _ Hx1) as (r0 & Hr0 & Hget).
      rewrite (data_row_nat _ _ m _ r) in Hr0 by (done || apply Hf).
      injection Hr0 as <-. unfold bind.
      rewrite (data_row_nat _ _ m _ r) by (done || apply Hf). rewrite Hget.
      destruct (matrix_inv_row h1 self m i) as (r' & xs & Hr' & Hxs & Hxlen);
        [apply Hf|done|]. simplify_eq.
      apply list_setitem_store with xs; [done|lia].
    - intros h' Hf. by apply wp_ret. }
  unfold wp in Hwp. destruct (scale self factor h) as [o h'].
  simpl in Hwp. destruct Hwp as [-> Hf].
  exists h'. split_and!; [done|apply Hf|]. intros i j Hi Hj.
  destruct (matrix_inv_cell h self m (Z.to_nat i) (Z.to_nat j))
    as (_ & _ & x & _ & _ & _ & _ & Hx); [done|lia..|].
  exists x. split; apply value_at_cell_Z; try lia; [done|].
  rewrite (fill_done _ _ _ _ _ _ _ Hf); [|unfold processed; lia|lia].
  unfold F. by rewrite Hx.
Qed.

Lemma get_is_square_run h self m :
  h !! self = Some (OMatrix m) → get_is_square self h = (Return (is_square m), h).
Proof. intros Hm. unfold get_is_square, bind. by rewrite (get_matrix_run _ _ _ Hm). Qed.

(** X7. The shape is fixed at construction: whatever mutations follow,
    returning or raising, [rows_count] and [cols_count] return the
    arguments of the constructor and [is_square] tells whether they are
    equal. *)
Theorem shape_never_changes h rows cols (μs : list mutation) :
  ∃ self h', Matrix_init rows cols h = (Return self, h') ∧
    let h'' := mutate_all self μs h' in
    get_rows_count self h'' = (Return rows, h'') ∧
    get_cols_count self h'' = (Return cols, h'') ∧
    get_is_square self h'' = (Return (bool_decide (rows = cols)), h'').
Proof.
  exists (length h + Z.to_nat rows)%nat, (new_heap h rows cols).
  split; [apply Matrix_init_run|]. intros h''.
  assert (h'' !! (length h + Z.to_nat rows)%nat =
          Some (OMatrix (new_matrix h rows cols))) as Hself.
  { eapply writes_matrix; [|apply new_heap_self].
    apply mutate_all_writes, new_heap_self. }
  split_and!.
  - by rewrite (get_rows_count_run _ _ _ Hself).
  - by rewrite (get_cols_count_run _ _ _ Hself).
  - by rewrite (get_is_square_run _ _ _ Hself).
Qed.

(** What [value_at] does on a matrix is the same in two heaps that hold
    the matrix and the same row lists. *)
Lemma value_at_rows_kept h h' self m row col :
  matrix_inv h self m → h' !! self = Some (OMatrix m) →
  (∀ r o, r ∈ data m → h !! r = Some o → h' !! r = Some o) →
  value_at self row col h' = ((value_at self row col h).1, h').
Proof.
  intros Hinv Hself Hkeep. unfold value_at, bind.
  rewrite (data_row_run h' _ m) by done.
  rewrite (data_row_run h _ m) by apply Hinv.
  destruct (py_getitem (data m) row) as [r|] eqn:Hr; [|done].
  apply py_getitem_elem_of in Hr.
  pose proof (inv_rows _ _ _ Hinv) as Hrows. rewrite Forall_forall in Hrows.
  destruct (Hrows r Hr) as (xs & Hxs & _).
  unfold list_getitem. rewrite (Hkeep _ _ Hr Hxs), Hxs.
  by destruct (py_getitem xs col).
Qed.

(** X8. A mutation writes to the row lists of its own matrix and to
    nothing else: every other object is unchanged, and a matrix that
    shares no row with the mutated one reads as before at every index. *)
Theorem mutations_write_own_rows_only h self m (μs : list mutation) :
  h !! self = Some (OMatrix m) →
  let h' := mutate_all self μs h in
  (∀ l o, h !! l = Some o → l ∉ data m → h' !! l = Some o) ∧
  (∀ other mo, matrix_inv h other mo →
     (∀ r, r ∈ data mo → r ∉ data m) →
     ∀ row col, value_at other row col h' = ((value_at other row col h).1, h')).
Proof.
  intros Hself h'.
  pose proof (mutate_all_writes self m μs h Hself) as Hw. fold h' in Hw.
  split.
  - intros l o Hl Hnot. by eapply writes_unchanged.
  - intros other mo Hinvo Hdisj row col.
    apply value_at_rows_kept with mo; [done| |].
    + eapply writes_matrix; [exact Hw|apply Hinvo].
    + intros r o Hr Hl. eapply writes_unchanged; [exact Hw|done|by apply Hdisj].
Qed.

(** X9. [a + x] for an [x] that is not a matrix raises [AttributeError]
    (there is no [_Matrix__rows_count] to read) and changes nothing. *)
Theorem Matrix_add_not_a_matrix h self m (other : value) :
  h !! self = Some (OMatrix m) →
  (∀ o mo, other = VRef o → h !! o ≠ Some (OMatrix mo)) →
  Matrix_add self other h = (Raise AttributeError, h).
Proof.
  intros Hself Hother. unfold Matrix_add, bind.
  rewrite (get_rows_count_run _ _ m) by done.
  destruct other as [| |x|o]; simpl; [done..|].
  unfold get_matrix.
  destruct (h !! o) as [[| |mo]|] eqn:Ho; try done.
  exfalso. by eapply Hother.
Qed.

(** X10. The sum is built on a copy: its rows are new lists, and whatever
    mutations are applied to the sum, both operands read as before. *)
Theorem sum_is_independent_of_operands h self m other mo :
  matrix_inv h self m → matrix_inv h other mo →
  rows_count m = rows_count mo → cols_count m = cols_count mo →
  ∃ res mres h', Matrix_add self (VRef other) h = (Return res, h') ∧
    matrix_inv h' res mres ∧
    (∀ r, r ∈ data mres → h !! r = None) ∧
    ∀ μs : list mutation,
      let h'' := mutate_all res μs h' in
      (∀ l o, h !! l = Some o → h'' !! l = Some o) ∧
      ∀ row col,
        value_at self row col h'' = ((value_at self row col h).1, h'') ∧
        value_at other row col h'' = ((value_at other row col h).1, h'').
Proof.
  intros Hinv Hinvo HR HC.
  destruct (Matrix_add_run _ _ _ _ _ Hinv Hinvo HR HC)
    as (res & mres & h' & Hrun & _ & Hres & _ & _ & Hfresh & Hw & _).
  exists res, mres, h'. split_and!; [done..|]. intros μs h''.
  assert (writes (λ _, False) h h'') as Hw''.
  { apply writes_fresh_rows with h' mres; [done| |done].
    apply mutate_all_writes, Hres. }
  pose proof (writes_nothing _ _ Hw'') as Hkeep.
  split; [done|]. intros row col.
  split; by eapply value_at_preserved.
Qed.

Lemma close_at_sym h a b i j :
  (∀ x y, are_close_enough x y = are_close_enough y x) →
  close_at h a b i j → close_at h b a i j.
Proof.
  intros Hsym (x & y & Hx & Hy & Hclose). exists y, x.
  split_and!; [done..|]. by rewrite Hsym.
Qed.

(** X11. When [are_close_enough] is symmetric, so is [==] on matrices:
    [a == b] and [b == a] return the same. *)
Theorem Matrix_eq_symmetric h a ma b mb :
  (∀ x y, are_close_enough x y = are_close_enough y x) →
  matrix_inv h a ma → matrix_inv h b mb →
  Matrix_eq a (VRef b) h = Matrix_eq b (VRef a) h.
Proof.
  intros Hsym Ha Hb.
  destruct (decide (a = b)) as [->|Hne]; [done|].
  destruct (decide (rows_count ma = rows_count mb ∧ cols_count ma = cols_count mb))
    as [[HR HC]|Hshape].
  - destruct (Matrix_eq_scan h a ma b mb) as (b1 & -> & Hb1); [done..|].
    destruct (Matrix_eq_scan h b mb a ma) as (b2 & -> & Hb2); [done..|].
    f_equal. f_equal.
    assert (b1 = true ↔ b2 = true) as Hiff.
    { rewrite Hb1, Hb2. rewrite <- HR, <- HC.
      split; intros Hall i j Hi Hj; by apply close_at_sym, Hall. }
    destruct b1, b2; try done; [symmetry|]; by apply Hiff.
  - rewrite (Matrix_eq_shape h a ma b mb); [|apply Ha|apply Hb|done|lia].
    rewrite (Matrix_eq_shape h b mb a ma); [done|apply Hb|apply Ha|done|lia].
Qed.

(** X12. [m == m.copy()] is [True] exactly when [are_close_enough] accepts
    every element of [m] paired with itself, in particular whenever
    [are_close_enough] is reflexive. *)
Theorem copy_equals_source h self m :
  matrix_inv h self m →
  ∃ c h' b, copy self h = (Return c, h') ∧
    Matrix_eq self (VRef c) h' = (Return b, h') ∧
    (b = true ↔
     ∀ i j, 0 ≤ i < rows_count m → 0 ≤ j < cols_count m →
       ∃ x, value_at self i j h = (Return x, h) ∧ are_close_enough x x = true).
Proof.
  intros Hinv.
  destruct (copy_run _ _ _ Hinv)
    as (c & mc & h' & Hcopy & Hnew & Hc & HRc & HCc & _ & Hw & Hcells).
  assert (matrix_inv h' self m) as Hinv' by by eapply matrix_inv_writes.
  assert (c ≠ self) as Hne.
  { intros ->. rewrite (inv_self _ _ _ Hinv) in Hnew. done. }
  destruct (Matrix_eq_scan h' self m c mc) as (b & Hrun & Hb); [done..| | |];
    [congruence..|].
  exists c, h', b. split_and!; [done..|]. rewrite Hb. split.
  - intros Hall i j Hi Hj.
    destruct (Hall (Z.to_nat i) (Z.to_nat j)) as (x & y & Hx & Hy & Hclose); [lia..|].
    rewrite Hcells in Hy by lia.
    destruct (matrix_inv_cell h self m (Z.to_nat i) (Z.to_nat j))
      as (_ & _ & x' & _ & _ & _ & _ & Hx'); [done|lia..|].
    apply (cell_kept h h') in Hx' as Hx''; [|done].
    exists x'. split; [by apply value_at_cell_Z; [lia..|]|]. congruence.
  - intros Hall i j Hi Hj.
    destruct (Hall (Z.of_nat i) (Z.of_nat j)) as (x & Hx & Hclose); [lia..|].
    destruct (matrix_inv_cell h self m i j Hinv Hi Hj)
      as (_ & _ & x' & _ & _ & _ & _ & Hx').
    rewrite (value_at_cell _ _ _ _ x') in Hx by done. simplify_eq.
    exists x, x. split_and!; [by apply (cell_kept h h')| |done].
    rewrite Hcells by lia. done.
Qed.

(** The cells after [add_to_value(amount, row, col)], indices in range. *)
Lemma add_to_value_cells h self m amount row col :
  matrix_inv h self m →
  - rows_count m ≤ row < rows_count m →
  - cols_count m ≤ col < cols_count m →
  ∃ x h', cell h self (Z.to_nat (row mod rows_count m))
                      (Z.to_nat (col mod cols_count m)) = Some x ∧
    add_to_value self amount row col h = (Return self, h') ∧
    matrix_inv h' self m ∧
    ∀ i j, cell h' self i j =
      if decide (i = Z.to_nat (row mod rows_count m) ∧
                 j = Z.to_nat (col mod cols_count m))
      then Some (add x amount) else cell h self i j.
Proof.
  intros Hinv Hrow Hcol.
  destruct (value_at_mod h self m row col Hinv Hrow Hcol) as (x & Hx & Hget).
  destruct (store_at_mod h self m row col (add x amount) Hinv Hrow Hcol)
    as (r & h' & Hr & Hset & Hinv' & Hcells).
  exists x, h'. split_and!; [done| |done..].
  unfold value_at, bind in Hget. rewrite Hr in Hget.
  unfold add_to_value, bind. by rewrite Hr, Hget, Hset.
Qed.

(** X13. [add_to_value(a, r, c)] followed by [add_to_value(b, r, c)]
    leaves [(x + a) + b] where a single [add_to_value(a + b, r, c)] leaves
    [x + (a + b)]; at every other position both leave the same. The two
    agree at [(r, c)] exactly when [+] associates on [x], [a], [b]. *)
Theorem add_to_value_twice h self m a b row col :
  matrix_inv h self m →
  - rows_count m ≤ row < rows_count m →
  - cols_count m ≤ col < cols_count m →
  ∃ x h1 h2 h3,
    value_at self row col h = (Return x, h) ∧
    add_to_value self a row col h = (Return self, h1) ∧
    add_to_value self b row col h1 = (Return self, h2) ∧
    add_to_value self (add a b) row col h = (Return self, h3) ∧
    value_at self row col h2 = (Return (add (add x a) b), h2) ∧
    value_at self row col h3 = (Return (add x (add a b)), h3) ∧
    ∀ i j, 0 ≤ i < rows_count m → 0 ≤ j < cols_count m →
      i ≠ row mod rows_count m ∨ j ≠ col mod cols_count m →
      (value_at self i j h2).1 = (value_at self i j h3).1.
Proof.
  intros Hinv Hrow Hcol.
  pose proof (Z.mod_pos_bound row (rows_count m)) as Hmr.
  pose proof (Z.mod_pos_bound col (cols_count m)) as Hmc.
  destruct (add_to_value_cells h self m a row col Hinv Hrow Hcol)
    as (x & h1 & Hx & Hrun1 & Hinv1 & Hcells1).
  destruct (add_to_value_cells h1 self m b row col Hinv1 Hrow Hcol)
    as (x1 & h2 & Hx1 & Hrun2 & Hinv2 & Hcells2).
  destruct (add_to_value_cells h self m (add a b) row col Hinv Hrow Hcol)
    as (x' & h3 & Hx' & Hrun3 & Hinv3 & Hcells3).
  rewrite Hcells1, decide_True in Hx1 by done. simplify_eq.
  exists x, h1, h2, h3. split_and!; try done.
  - destruct (value_at_mod h self m row col Hinv Hrow Hcol) as (y & Hy & ->).
    congruence.
  - destruct (value_at_mod h2 self m row col Hinv2 Hrow Hcol) as (y & Hy & ->).
    rewrite Hcells2, decide_True in Hy by done. by simplify_eq.
  - destruct (value_at_mod h3 self m row col Hinv3 Hrow Hcol) as (y & Hy & ->).
    rewrite Hcells3, decide_True in Hy by done. by simplify_eq.
  - intros i j Hi Hj Hne.
    rewrite (value_at_same_cell h h2 self m i j) by
      (done || (rewrite Hcells2, Hcells1; by rewrite !decide_False by lia)).
    rewrite (value_at_same_cell h h3 self m i j) by
      (done || (rewrite Hcells3; by rewrite decide_False by lia)).
    done.
Qed.

Lemma range_succ (k : nat) :
  range (Z.of_nat (S k)) = range (Z.of_nat k) ++ [Z.of_nat k].
Proof.
  unfold range. replace (Z.of_nat (S k)) with (Z.of_nat k + 1) by lia.
  rewrite seqZ_app by lia. done.
Qed.

(** The cells after [set_identity_row(0)], ..., [set_identity_row(k - 1)]. *)
Lemma identity_rows_prefix h self m (k : nat) :
  matrix_inv h self m → Z.of_nat k ≤ rows_count m →
  matrix_inv (mutate_all self (SetIdentityRow <$> range (Z.of_nat k)) h) self m ∧
  ∀ i j : nat,
    cell (mutate_all self (SetIdentityRow <$> range (Z.of_nat k)) h) self i j =
      if decide ((i < k)%nat ∧ Z.of_nat j < cols_count m)
      then Some (if decide (i = j) then one else zero)
      else cell h self i j.
Proof.
  intros Hinv. induction k as [|k IH]; intros Hk.
  - split; [done|]. intros i j. by rewrite decide_False by lia.
  - destruct IH as [Hinvk Hcellsk]; [lia|].
    rewrite range_succ, fmap_app. unfold mutate_all in *. rewrite foldl_app.
    simpl.
    destruct (set_identity_row_cells _ self m (Z.of_nat k) Hinvk)
      as (h' & Hrun & Hinv' & Hcells'); [lia|].
    rewrite Hrun. simpl. split; [done|]. intros i j.
    rewrite Hcells', Hcellsk. rewrite Z.mod_small, Nat2Z.id by lia.
    repeat case_decide; try done; try lia; destruct_and?; simplify_eq; lia.
Qed.

(** X14. Calling [set_identity_row(i)] for every row [i] in turn leaves the
    identity pattern: [value_at(i, j)] is [1] when [i == j] and [0]
    otherwise, whatever the matrix held before. *)
Theorem identity_rows_make_identity h self m :
  matrix_inv h self m →
  let h' := mutate_all self (SetIdentityRow <$> range (rows_count m)) h in
  ∀ i j, 0 ≤ i < rows_count m → 0 ≤ j < cols_count m →
    value_at self i j h' = (Return (if decide (i = j) then one else zero), h').
Proof.
  intros Hinv h' i j Hi Hj.
  pose proof (inv_rows_count _ _ _ Hinv) as HR.
  destruct (identity_rows_prefix h self m (length (data m)) Hinv) as [Hinv' Hcells];
    [lia|].
  rewrite <- HR in Hinv', Hcells. fold h' in Hinv', Hcells.
  apply value_at_cell_Z; [lia..|]. rewrite Hcells, decide_True by lia.
  do 2 f_equal. repeat case_decide; try done; lia.
Qed.

(** X15. [value_transposed_at(row, col)] checks its indices against the
    untransposed shape: it raises [IndexError], changing nothing, when
    [row] lies outside [-cols_count, cols_count) or [col] outside
    [-rows_count, rows_count), and returns an element otherwise. *)
Theorem value_transposed_at_bounds h self m row col :
  matrix_inv h self m →
  (¬ (- cols_count m ≤ row < cols_count m) ∨
   ¬ (- rows_count m ≤ col < rows_count m) →
   value_transposed_at self row col h = (Raise IndexError, h)) ∧
  (- cols_count m ≤ row < cols_count m →
   - rows_count m ≤ col < rows_count m →
   ∃ x, value_transposed_at self row col h = (Return x, h) ∧
        cell h self (Z.to_nat (col mod rows_count m))
                    (Z.to_nat (row mod cols_count m)) = Some x).
Proof.
  intros Hinv. split.
  - intros Hout. unfold value_transposed_at, bind.
    destruct (cell_access_out_of_range h self m col row Hinv)
      as [->|(r & xs & -> & Hr & Hrow)]; [by destruct Hout; [right|left]|done|].
    by apply list_getitem_out_of_range with xs.
  - intros Hrow Hcol.
    destruct (value_at_mod h self m col row Hinv Hcol Hrow) as (x & Hx & Hv).
    by exists x.
Qed.

End Mechanics.

(** ** The theorems at work on Python ints *)

(** A heap with the matrix [[1, 2], [3, 4]] at location 2, the vector
    [5, 6] at 3, the matrix [[1, 2], [3, 5]] at 6, the 1 x 3 matrix
    [[7, 8, 9]] at 8 and a second matrix [[1, 2], [3, 4]] at 11. Numbers
    are integers, [are_close_enough] is equality. *)
Abbreviation ex_a := (Build_matrix 2 2 true [0%nat; 1%nat]).
Abbreviation ex_b := (Build_matrix 2 2 true [4%nat; 5%nat]).
Abbreviation ex_c := (Build_matrix 1 3 false [7%nat]).
Abbreviation ex_d := (Build_matrix 2 2 true [9%nat; 10%nat]).
Abbreviation ex_heap :=
  ([OList [1; 2]; OList [3; 4]; OMatrix ex_a; OVector [5; 6];
    OList [1; 2]; OList [3; 5]; OMatrix ex_b;
    OList [7; 8; 9]; OMatrix ex_c;
    OList [1; 2]; OList [3; 4]; OMatrix ex_d] : list (@obj Z)).

(** A 2 x 0 matrix: two rows, no column. *)
Abbreviation ex_empty := (Build_matrix 2 0 false [0%nat; 1%nat]).
Abbreviation ex_empty_heap :=
  ([OList []; OList []; OMatrix ex_empty] : list (@obj Z)).

Ltac solve_matrix_inv :=
  split;
  [reflexivity | reflexivity | done | reflexivity
  | refine (bool_decide_unpack _ _); vm_compute; exact I
  | repeat constructor; eexists; split; reflexivity].

Lemma ex_a_inv : matrix_inv ex_heap 2 ex_a.
Proof. solve_matrix_inv. Defined.

Lemma ex_b_inv : matrix_inv ex_heap 6 ex_b.
Proof. solve_matrix_inv. Defined.

Lemma ex_c_inv : matrix_inv ex_heap 8 ex_c.
Proof. solve_matrix_inv. Defined.

Lemma ex_d_inv : matrix_inv ex_heap 11 ex_d.
Proof. solve_matrix_inv. Defined.


(** The example of the spec: [[1, 2], [3, 4]] times [5, 6] is [17, 39]. *)
Lemma times_vector_example :
  matrix_inv ex_heap 2 ex_a ∧
  ex_heap !! 3%nat = Some (OVector [5; 6]) ∧
  ∃ res h', times_vector 0 Z.add Z.mul 2 3 ex_heap = (Return res, h') ∧
    vector_length res h' = (Return 2, h') ∧
    vector_value_at res 0 h' = (Return 17, h') ∧
    vector_value_at res 1 h' = (Return 39, h').
Proof.
  split; [exact ex_a_inv|]. split; [reflexivity|].
  destruct (times_vector_dot_products 0 Z.add Z.mul ex_heap 2 ex_a 3 [5; 6]
              ex_a_inv eq_refl) as [_ Hok].
  destruct (Hok eq_refl) as (res & h' & Hrun & _ & Hlen & Hdot).
  exists res, h'. split; [exact Hrun|]. split; [exact Hlen|].
  destruct (Hdot 0) as (row0 & Hrow0 & _ & Hv0); [simpl; lia|].
  destruct (Hdot 1) as (row1 & Hrow1 & _ & Hv1); [simpl; lia|].
  injection Hrow0 as <-. injection Hrow1 as <-.
  split; [exact Hv0|exact Hv1].
Defined.



(** [==] on the example heap: the matrix itself, a vector, [None], a
    matrix of another shape, a matrix that differs in one element, and a
    distinct matrix with the same elements. *)
Lemma Matrix_eq_example :
  matrix_inv ex_heap 2 ex_a ∧
  Matrix_eq Z.eqb 2 (VRef 2) ex_heap = (Return true, ex_heap) ∧
  Matrix_eq Z.eqb 2 (VRef 3) ex_heap = (Return false, ex_heap) ∧
  Matrix_eq Z.eqb 2 VNone ex_heap = (Return false, ex_heap) ∧
  Matrix_eq Z.eqb 2 (VRef 8) ex_heap = (Return false, ex_heap) ∧
  Matrix_eq Z.eqb 2 (VRef 6) ex_heap = (Return false, ex_heap) ∧
  Matrix_eq Z.eqb 2 (VRef 11) ex_heap = (Return true, ex_heap).
Proof.
  split; [exact ex_a_inv|]. split_and!.
  - by apply (Matrix_eq_cases Z.eqb ex_heap 2 ex_a (VRef 2) ex_a_inv).
  - apply (Matrix_eq_cases Z.eqb ex_heap 2 ex_a (VRef 3) ex_a_inv).
    by intros o mo [= <-].
  - apply (Matrix_eq_cases Z.eqb ex_heap 2 ex_a VNone ex_a_inv).
    by intros o mo [=].
  - destruct (Matrix_eq_cases Z.eqb ex_heap 2 ex_a (VRef 8) ex_a_inv)
      as (_ & _ & Hmat).
    destruct (Hmat 8%nat ex_c eq_refl) as [Hshape _]; [lia|exact ex_c_inv|].
    apply Hshape. left. simpl. lia.
  - destruct (Matrix_eq_cases Z.eqb ex_heap 2 ex_a (VRef 6) ex_a_inv)
      as (_ & _ & Hmat).
    destruct (Hmat 6%nat ex_b eq_refl) as [_ Hscan]; [lia|exact ex_b_inv|].
    destruct (Hscan eq_refl eq_refl) as (b & -> & Hb).
    destruct b; [|reflexivity]. exfalso.
    destruct Hb as [Hb _].
    destruct (Hb eq_refl 1 1) as (x & y & Hx & Hy & Hclose); [simpl; lia..|].
    injection Hx as <-. injection Hy as <-. discriminate Hclose.
  - destruct (Matrix_eq_cases Z.eqb ex_heap 2 ex_a (VRef 11) ex_a_inv)
      as (_ & _ & Hmat).
    destruct (Hmat 11%nat ex_d eq_refl) as [_ Hscan]; [lia|exact ex_d_inv|].
    destruct (Hscan eq_refl eq_refl) as (b & -> & Hb).
    destruct b; [reflexivity|]. exfalso.
    destruct Hb as [_ Hb]. enough (false = true) by discriminate.
    apply Hb. simpl. intros i j Hi Hj.
    assert ((i = 0 ∨ i = 1) ∧ (j = 0 ∨ j = 1)) as [[-> | ->] [-> | ->]] by lia;
      eexists _, _; split_and!; reflexivity.
Defined.

(** [[1, 2], [3, 4]] + [[1, 2], [3, 5]] has 9 at (1, 1); the matrix added
    to itself has 8 there; a 2 x 2 and a 1 x 3 matrix do not add. *)
Lemma Matrix_add_example :
  matrix_inv ex_heap 2 ex_a ∧ matrix_inv ex_heap 6 ex_b ∧
  (∃ res h', Matrix_add 0 Z.add 2 (VRef 6) ex_heap = (Return res, h') ∧
             value_at res 1 1 h' = (Return 9, h')) ∧
  (∃ res h', Matrix_add 0 Z.add 2 (VRef 2) ex_heap = (Return res, h') ∧
             value_at res 1 1 h' = (Return 8, h')) ∧
  Matrix_add 0 Z.add 2 (VRef 8) ex_heap =
    (Raise (ValueError "Size mismatch"), ex_heap).
Proof.
  split; [exact ex_a_inv|]. split; [exact ex_b_inv|]. split_and!.
  - destruct (Matrix_add_elementwise 0 Z.add ex_heap 2 ex_a 6 ex_b ex_a_inv ex_b_inv)
      as (_ & Hsum & _).
    destruct (Hsum eq_refl eq_refl) as (res & mres & h' & Hrun & _ & _ & _ & _ & Hval).
    exists res, h'. split; [exact Hrun|].
    destruct (Hval 1 1) as (x & y & Hx & Hy & Hxy); [simpl; lia..|].
    injection Hx as <-. injection Hy as <-. exact Hxy.
  - destruct (Matrix_add_elementwise 0 Z.add ex_heap 2 ex_a 6 ex_b ex_a_inv ex_b_inv)
      as (_ & _ & (res & h' & Hrun & Hval)).
    exists res, h'. split; [exact Hrun|].
    destruct (Hval 1 1) as (x & Hx & Hxx); [simpl; lia..|].
    injection Hx as <-. exact Hxx.
  - destruct (Matrix_add_elementwise 0 Z.add ex_heap 2 ex_a 8 ex_c ex_a_inv ex_c_inv)
      as (Hraise & _).
    apply Hraise. left. simpl. lia.
Defined.

(** [set_data([5, 6, 7, 8])] puts 7 at (1, 0). *)
Lemma set_data_example :
  matrix_inv ex_heap 2 ex_a ∧
  Z.of_nat (length [5; 6; 7; 8]) = rows_count ex_a * cols_count ex_a ∧
  ∃ h', set_data 2 [5; 6; 7; 8] ex_heap = (Return 2%nat, h') ∧
        value_at 2 1 0 h' = (Return 7, h').
Proof.
  split; [exact ex_a_inv|]. split; [reflexivity|].
  destruct (set_data_row_major ex_heap 2 ex_a [5; 6; 7; 8] ex_a_inv) as [_ Hok].
  destruct (Hok eq_refl) as (h' & Hrun & _ & Hval).
  exists h'. split; [exact Hrun|].
  destruct (Hval 1 0) as (x & Hx & Hv); [simpl; lia..|].
  injection Hx as <-. exact Hv.
Defined.

(** [Matrix(2, 3)] on the empty heap. *)
Lemma Matrix_init_example :
  0 ≤ 2 ∧ 0 ≤ 3 ∧
  ∃ self h', Matrix_init 0 2 3 [] = (Return self, h') ∧
    get_rows_count self h' = (Return 2, h') ∧
    get_cols_count self h' = (Return 3, h') ∧
    value_at self 1 2 h' = (Return 0, h').
Proof.
  split; [lia|]. split; [lia|].
  destruct (Matrix_init_zero 0 [] 2 3) as (self & h' & Hrun & HR & HC & Hval); [lia..|].
  exists self, h'. split_and!; [exact Hrun|exact HR|exact HC|].
  apply Hval; lia.
Defined.

(** After [set_value(9, 0, 1)], [scale(2)], a failing
    [set_identity_row(5)] and [add_to_value(1, 0, 1)] both reads give 19. *)
Lemma value_transposed_at_example :
  matrix_inv ex_heap 2 ex_a ∧ 0 ≤ 1 < cols_count ex_a ∧ 0 ≤ 0 < rows_count ex_a ∧
  let h' := mutate_all 0 1 Z.add Z.mul 2
              [SetValue 9 0 1; Scale 2; SetIdentityRow 5; AddToValue 1 0 1]
              ex_heap in
  value_transposed_at 2 1 0 h' = (Return 19, h') ∧
  value_at 2 0 1 h' = (Return 19, h').
Proof.
  split; [exact ex_a_inv|]. split; [simpl; lia|]. split; [simpl; lia|].
  intros h'.
  destruct (value_transposed_at_value_at 0 1 Z.add Z.mul ex_heap 2 ex_a
              [SetValue 9 0 1; Scale 2; SetIdentityRow 5; AddToValue 1 0 1] 1 0
              ex_a_inv) as (x & Ht & Hv); [simpl; lia..|].
  fold h' in Ht, Hv.
  assert (x = 19) as -> by (injection Hv as <-; reflexivity).
  split; [exact Ht|exact Hv].
Defined.

(** The copy of [[1, 2], [3, 4]] is a new matrix with the same elements;
    scaling and overwriting the copy leaves the source as it was, and so
    do an addition and a product. *)
Lemma derived_operations_example :
  matrix_inv ex_heap 2 ex_a ∧
  (∃ c h', copy 0 2 ex_heap = (Return c, h') ∧
     ex_heap !! c = None ∧
     value_at c 1 1 h' = (Return 4, h') ∧
     let h'' := mutate_all 0 1 Z.add Z.mul c [Scale 3; SetValue 0 0 0] h' in
     value_at 2 1 1 h'' = (Return 4, h'') ∧
     value_at 2 0 0 h'' = (Return 1, h'')) ∧
  (Matrix_add 0 Z.add 2 (VRef 6) ex_heap).2 !! 5%nat = Some (OList [3; 5]) ∧
  (times_vector 0 Z.add Z.mul 2 3 ex_heap).2 !! 1%nat = Some (OList [3; 4]).
Proof.
  split; [exact ex_a_inv|].
  destruct (derived_operations_preserve_inputs 0 1 Z.add Z.mul ex_heap 2 ex_a ex_a_inv)
    as ((c & mc & h' & Hrun & Hnew & _ & _ & _ & _ & _ & Hsame & Hmut) & Hadd & Htimes).
  split_and!.
  - exists c, h'. split_and!; [exact Hrun|exact Hnew| |].
    + destruct (Hsame 1 1) as (x & Hx & Hc); [simpl; lia..|].
      injection Hx as <-. exact Hc.
    + intros h''.
      destruct (Hmut [Scale 3; SetValue 0 0 0]) as [_ Hread]. fold h'' in Hread.
      split; [exact (Hread 1 1)|exact (Hread 0 0)].
  - by apply (Hadd 6%nat ex_b ex_b_inv).
  - by apply (Htimes 3%nat [5; 6]).
Defined.

(** Three numbers do not fill a 2 x 2 matrix. *)
Lemma set_data_size_mismatch_example :
  ex_heap !! 2%nat = Some (OMatrix ex_a) ∧
  Z.of_nat (length [1; 2; 3]) ≠ rows_count ex_a * cols_count ex_a ∧
  set_data 2 [1; 2; 3] ex_heap =
    (Raise (ValueError "Cannot set data: size mismatch"), ex_heap).
Proof.
  split; [reflexivity|]. split; [simpl; lia|].
  apply (set_data_size_mismatch_unchanged ex_heap 2 ex_a [1; 2; 3]);
    [reflexivity|simpl; lia].
Defined.

(** ** Further examples on the same heap *)

(** [set_value(9, -1, 0)] on [[1, 2], [3, 4]] writes the last row. *)
Lemma set_value_example :
  matrix_inv ex_heap 2 ex_a ∧
  - rows_count ex_a ≤ -1 < rows_count ex_a ∧
  - cols_count ex_a ≤ 0 < cols_count ex_a ∧
  ∃ h', set_value 2 9 (-1) 0 ex_heap = (Return 2%nat, h') ∧
    value_at 2 (-1) 0 h' = (Return 9, h') ∧
    value_at 2 1 0 h' = (Return 9, h') ∧
    value_at 2 0 0 h' = (Return 1, h') ∧
    value_at 2 1 1 h' = (Return 4, h').
Proof.
  split; [exact ex_a_inv|]. split; [simpl; lia|]. split; [simpl; lia|].
  destruct (set_value_then_value_at ex_heap 2 ex_a 9 (-1) 0 ex_a_inv)
    as (h' & Hrun & Hinv' & Hget & Hother); [simpl; lia..|].
  exists h'. split_and!; [exact Hrun|exact Hget| | |].
  - destruct (value_at_negative_index h' 2 ex_a 1 0 Hinv') as (x & H1 & _ & H2 & _);
      [simpl; lia..|].
    change (value_at 2 (-1) 0 h' = (Return x, h')) in H2.
    rewrite Hget in H2. injection H2 as <-. exact H1.
  - apply (Hother 0 0); [simpl; lia..|]. left. done.
  - apply (Hother 1 1); [simpl; lia..|]. right. done.
Defined.

(** [add_to_value(10, 1, 1)] turns the 4 into 14. *)
Lemma add_to_value_example :
  matrix_inv ex_heap 2 ex_a ∧
  - rows_count ex_a ≤ 1 < rows_count ex_a ∧
  - cols_count ex_a ≤ 1 < cols_count ex_a ∧
  ∃ h', add_to_value Z.add 2 10 1 1 ex_heap = (Return 2%nat, h') ∧
    value_at 2 1 1 h' = (Return 14, h') ∧
    value_at 2 1 0 h' = (Return 3, h').
Proof.
  split; [exact ex_a_inv|]. split; [simpl; lia|]. split; [simpl; lia|].
  destruct (add_to_value_accumulates Z.add ex_heap 2 ex_a 10 1 1 ex_a_inv)
    as (x & h' & Hx & Hrun & _ & Hget & Hother); [simpl; lia..|].
  injection Hx as <-.
  exists h'. split_and!; [exact Hrun|exact Hget|].
  apply (Hother 1 0); [simpl; lia..|]. right. done.
Defined.

(** The last element, read four ways. *)
Lemma value_at_negative_index_example :
  matrix_inv ex_heap 2 ex_a ∧
  0 ≤ 1 < rows_count ex_a ∧ 0 ≤ 1 < cols_count ex_a ∧
  value_at 2 1 1 ex_heap = (Return 4, ex_heap) ∧
  value_at 2 (-1) (-1) ex_heap = (Return 4, ex_heap) ∧
  value_at 2 (-1) 1 ex_heap = (Return 4, ex_heap) ∧
  value_at 2 1 (-1) ex_heap = (Return 4, ex_heap).
Proof.
  split; [exact ex_a_inv|]. split; [simpl; lia|]. split; [simpl; lia|].
  destruct (value_at_negative_index ex_heap 2 ex_a 1 1 ex_a_inv)
    as (x & H1 & H2 & H3 & H4); [simpl; lia..|].
  injection H1 as <-. split_and!; [reflexivity|exact H2|exact H3|exact H4].
Defined.

(** [set_identity_row(1)] makes the second row [0, 1]; [set_identity_row(-1)]
    makes it [0, 0]. The first row stays [1, 2]. *)
Lemma set_identity_row_example :
  matrix_inv ex_heap 2 ex_a ∧
  - rows_count ex_a ≤ 1 < rows_count ex_a ∧
  - rows_count ex_a ≤ -1 < rows_count ex_a ∧
  (∃ h', set_identity_row 0 1 2 1 ex_heap = (Return 2%nat, h') ∧
     value_at 2 1 0 h' = (Return 0, h') ∧
     value_at 2 1 1 h' = (Return 1, h') ∧
     value_at 2 0 1 h' = (Return 2, h')) ∧
  (∃ h', set_identity_row 0 1 2 (-1) ex_heap = (Return 2%nat, h') ∧
     value_at 2 (-1) 0 h' = (Return 0, h') ∧
     value_at 2 (-1) 1 h' = (Return 0, h')).
Proof.
  split; [exact ex_a_inv|]. split; [simpl; lia|]. split; [simpl; lia|]. split.
  - destruct (set_identity_row_effect 0 1 ex_heap 2 ex_a 1 ex_a_inv)
      as (h' & Hrun & _ & Hrow & Hother); [simpl; lia|].
    exists h'. split_and!; [exact Hrun| | |].
    + apply (Hrow 0). simpl. lia.
    + apply (Hrow 1). simpl. lia.
    + apply (Hother 0 1); [simpl; lia..|done].
  - destruct (set_identity_row_effect 0 1 ex_heap 2 ex_a (-1) ex_a_inv)
      as (h' & Hrun & _ & Hrow & _); [simpl; lia|].
    exists h'. split_and!; [exact Hrun| |].
    + apply (Hrow 0). simpl. lia.
    + apply (Hrow 1). simpl. lia.
Defined.

(** [set_identity_col(0)] makes the first column [1, 0]. *)
Lemma set_identity_col_example :
  matrix_inv ex_heap 2 ex_a ∧
  - cols_count ex_a ≤ 0 < cols_count ex_a ∧
  ∃ h', set_identity_col 0 1 2 0 ex_heap = (Return 2%nat, h') ∧
    value_at 2 0 0 h' = (Return 1, h') ∧
    value_at 2 1 0 h' = (Return 0, h') ∧
    value_at 2 1 1 h' = (Return 4, h').
Proof.
  split; [exact ex_a_inv|]. split; [simpl; lia|].
  destruct (set_identity_col_effect 0 1 ex_heap 2 ex_a 0 ex_a_inv)
    as (h' & Hrun & _ & Hcol & Hother); [simpl; lia|].
  exists h'. split_and!; [exact Hrun| | |].
  - apply (Hcol 0). simpl. lia.
  - apply (Hcol 1). simpl. lia.
  - apply (Hother 1 1); [simpl; lia..|done].
Defined.

(** [scale(3)] turns the 4 into 12. *)
Lemma scale_example :
  matrix_inv ex_heap 2 ex_a ∧
  ∃ h', scale Z.mul 2 3 ex_heap = (Return 2%nat, h') ∧
    value_at 2 1 1 h' = (Return 12, h').
Proof.
  split; [exact ex_a_inv|].
  destruct (scale_multiplies_elements Z.mul ex_heap 2 ex_a 3 ex_a_inv)
    as (h' & Hrun & _ & Hval).
  exists h'. split; [exact Hrun|].
  destruct (Hval 1 1) as (x & Hx & Hx'); [simpl; lia..|].
  injection Hx as <-. exact Hx'.
Defined.

(** Scaling and overwriting the matrix at 2 leaves the matrix at 6 alone. *)
Lemma mutations_write_own_rows_only_example :
  ex_heap !! 2%nat = Some (OMatrix ex_a) ∧
  matrix_inv ex_heap 6 ex_b ∧
  (∀ r : nat, r ∈ data ex_b → r ∉ data ex_a) ∧
  let h' := mutate_all 0 1 Z.add Z.mul 2 [Scale 3; SetValue 7 0 0; SetData [1]]
              ex_heap in
  h' !! 3%nat = Some (OVector [5; 6]) ∧
  value_at 6 1 1 h' = (Return 5, h').
Proof.
  assert (∀ r : nat, r ∈ data ex_b → r ∉ data ex_a) as Hdisj.
  { simpl. intros r Hr Hr'.
    rewrite !elem_of_cons, elem_of_nil in Hr, Hr'. lia. }
  split; [reflexivity|]. split; [exact ex_b_inv|]. split; [exact Hdisj|].
  intros h'.
  destruct (mutations_write_own_rows_only 0 1 Z.add Z.mul ex_heap 2 ex_a
              [Scale 3; SetValue 7 0 0; SetData [1]] eq_refl) as [Hobj Hval].
  fold h' in Hobj, Hval. split.
  - apply Hobj; [reflexivity|]. simpl.
    rewrite !elem_of_cons, elem_of_nil. lia.
  - exact (Hval 6%nat ex_b ex_b_inv Hdisj 1 1).
Defined.

(** A matrix plus a number, plus [None], plus a vector. *)
Lemma Matrix_add_not_a_matrix_example :
  ex_heap !! 2%nat = Some (OMatrix ex_a) ∧
  Matrix_add 0 Z.add 2 (VNum 5) ex_heap = (Raise AttributeError, ex_heap) ∧
  Matrix_add 0 Z.add 2 VNone ex_heap = (Raise AttributeError, ex_heap) ∧
  Matrix_add 0 Z.add 2 (VRef 3) ex_heap = (Raise AttributeError, ex_heap).
Proof.
  split; [reflexivity|]. split_and!.
  - apply (Matrix_add_not_a_matrix 0 Z.add ex_heap 2 ex_a); [reflexivity|].
    by intros o mo [=].
  - apply (Matrix_add_not_a_matrix 0 Z.add ex_heap 2 ex_a); [reflexivity|].
    by intros o mo [=].
  - apply (Matrix_add_not_a_matrix 0 Z.add ex_heap 2 ex_a); [reflexivity|].
    by intros o mo [= <-].
Defined.

(** Zeroing the sum of the matrices at 2 and 6 changes neither of them. *)
Lemma sum_is_independent_example :
  matrix_inv ex_heap 2 ex_a ∧ matrix_inv ex_heap 6 ex_b ∧
  ∃ res h', Matrix_add 0 Z.add 2 (VRef 6) ex_heap = (Return res, h') ∧
    let h'' := mutate_all 0 1 Z.add Z.mul res [Scale 0] h' in
    value_at 2 1 1 h'' = (Return 4, h'') ∧
    value_at 6 1 1 h'' = (Return 5, h'').
Proof.
  split; [exact ex_a_inv|]. split; [exact ex_b_inv|].
  destruct (sum_is_independent_of_operands 0 1 Z.add Z.mul ex_heap 2 ex_a 6 ex_b
              ex_a_inv ex_b_inv eq_refl eq_refl)
    as (res & mres & h' & Hrun & _ & _ & Hmut).
  exists res, h'. split; [exact Hrun|]. intros h''.
  destruct (Hmut [Scale 0]) as [_ Hread]. fold h'' in Hread.
  split; [exact (proj1 (Hread 1 1))|exact (proj2 (Hread 1 1))].
Defined.

(** With equality as [are_close_enough], [a == b] and [b == a] agree. *)
Lemma Matrix_eq_symmetric_example :
  (∀ x y, Z.eqb x y = Z.eqb y x) ∧
  matrix_inv ex_heap 2 ex_a ∧ matrix_inv ex_heap 6 ex_b ∧
  Matrix_eq Z.eqb 6 (VRef 2) ex_heap = Matrix_eq Z.eqb 2 (VRef 6) ex_heap ∧
  Matrix_eq Z.eqb 11 (VRef 2) ex_heap = Matrix_eq Z.eqb 2 (VRef 11) ex_heap.
Proof.
  split; [exact Z.eqb_sym|]. split; [exact ex_a_inv|]. split; [exact ex_b_inv|].
  split.
  - exact (Matrix_eq_symmetric Z.eqb ex_heap 6 ex_b 2 ex_a Z.eqb_sym ex_b_inv ex_a_inv).
  - exact (Matrix_eq_symmetric Z.eqb ex_heap 11 ex_d 2 ex_a Z.eqb_sym ex_d_inv ex_a_inv).
Defined.

(** With equality as [are_close_enough], a matrix equals its copy. *)
Lemma copy_equals_source_example :
  matrix_inv ex_heap 2 ex_a ∧
  ∃ c h', copy 0 2 ex_heap = (Return c, h') ∧
    Matrix_eq Z.eqb 2 (VRef c) h' = (Return true, h').
Proof.
  split; [exact ex_a_inv|].
  destruct (copy_equals_source 0 Z.eqb ex_heap 2 ex_a ex_a_inv)
    as (c & h' & b & Hcopy & Heq & Hb).
  exists c, h'. split; [exact Hcopy|].
  assert (b = true) as ->; [|exact Heq].
  apply Hb. intros i j Hi Hj.
  destruct (value_at_in_range ex_heap 2 ex_a i j ex_a_inv) as [x Hx]; [lia..|].
  exists x. split; [exact Hx|apply Z.eqb_refl].
Defined.

(** On integers [(1 + 2) + 3] and [1 + (2 + 3)] are both 6. *)
Lemma add_to_value_twice_example :
  matrix_inv ex_heap 2 ex_a ∧
  - rows_count ex_a ≤ 0 < rows_count ex_a ∧
  - cols_count ex_a ≤ 0 < cols_count ex_a ∧
  ∃ h1 h2 h3,
    add_to_value Z.add 2 2 0 0 ex_heap = (Return 2%nat, h1) ∧
    add_to_value Z.add 2 3 0 0 h1 = (Return 2%nat, h2) ∧
    add_to_value Z.add 2 5 0 0 ex_heap = (Return 2%nat, h3) ∧
    value_at 2 0 0 h2 = (Return 6, h2) ∧
    value_at 2 0 0 h3 = (Return 6, h3).
Proof.
  split; [exact ex_a_inv|]. split; [simpl; lia|]. split; [simpl; lia|].
  destruct (add_to_value_twice Z.add ex_heap 2 ex_a 2 3 0 0 ex_a_inv)
    as (x & h1 & h2 & h3 & Hx & H1 & H2 & H3 & Hv2 & Hv3 & _); [simpl; lia..|].
  injection Hx as <-.
  exists h1, h2, h3. split_and!; [exact H1|exact H2|exact H3|exact Hv2|exact Hv3].
Defined.

(** [set_identity_row(0)] and [set_identity_row(1)] turn [[1, 2], [3, 4]]
    into [[1, 0], [0, 1]]. *)
Lemma identity_rows_example :
  matrix_inv ex_heap 2 ex_a ∧
  let h' := mutate_all 0 1 Z.add Z.mul 2 [SetIdentityRow 0; SetIdentityRow 1]
              ex_heap in
  value_at 2 0 0 h' = (Return 1, h') ∧ value_at 2 0 1 h' = (Return 0, h') ∧
  value_at 2 1 0 h' = (Return 0, h') ∧ value_at 2 1 1 h' = (Return 1, h').
Proof.
  split; [exact ex_a_inv|]. intros h'.
  pose proof (identity_rows_make_identity 0 1 Z.add Z.mul ex_heap 2 ex_a ex_a_inv)
    as Hid.
  split_and!; [apply (Hid 0 0)|apply (Hid 0 1)|apply (Hid 1 0)|apply (Hid 1 1)];
    simpl; lia.
Defined.

(** On the 1 x 3 matrix [[7, 8, 9]] the transposed position (2, 0) holds 9
    and the transposed position (0, 2) does not exist. *)
Lemma value_transposed_at_bounds_example :
  matrix_inv ex_heap 8 ex_c ∧
  ¬ (- rows_count ex_c ≤ 2 < rows_count ex_c) ∧
  value_transposed_at 8 0 2 ex_heap = (Raise IndexError, ex_heap) ∧
  value_transposed_at 8 2 0 ex_heap = (Return 9, ex_heap).
Proof.
  split; [exact ex_c_inv|]. split; [simpl; lia|]. split.
  - apply (value_transposed_at_bounds ex_heap 8 ex_c 0 2 ex_c_inv).
    right. simpl. lia.
  - destruct (value_transposed_at_bounds ex_heap 8 ex_c 2 0 ex_c_inv) as [_ Hin].
    destruct Hin as (x & Hx & Hcell); [simpl; lia..|].
    injection Hcell as <-. exact Hx.
Defined.

(** [m * 5], [m * None], [m * m] and [m * v] are the right operand;
    [m * NotImplemented] is an error. *)
Lemma Matrix_times_example :
  (VNum 5 : @value Z) ≠ VNotImplemented ∧
  Matrix_times 2 (VNum 5) ex_heap = (Return (VNum 5), ex_heap) ∧
  Matrix_times 2 VNone ex_heap = (Return VNone, ex_heap) ∧
  Matrix_times 2 (VRef 2) ex_heap = (Return (VRef 2), ex_heap) ∧
  Matrix_times 2 (VRef 3) ex_heap = (Return (VRef 3), ex_heap) ∧
  Matrix_times 2 VNotImplemented ex_heap = (Raise TypeError, ex_heap).
Proof.
  split; [discriminate|]. split_and!.
  - by apply (Matrix_times_returns_operand ex_heap 2 (VNum 5)).
  - by apply (Matrix_times_returns_operand ex_heap 2 VNone).
  - by apply (Matrix_times_returns_operand ex_heap 2 (VRef 2)).
  - by apply (Matrix_times_returns_operand ex_heap 2 (VRef 3)).
  - by apply (Matrix_times_returns_operand ex_heap 2 VNotImplemented).
Defined.

(** C3 as stated fails on the code: with [NotImplemented] as the operand
    the method returns it, and the operator [*] raises [TypeError] instead
    of returning the operand. *)
Lemma Matrix_times_NotImplemented_raises :
  ex_heap !! 2%nat = Some (OMatrix ex_a) ∧
  Matrix_mul 2 VNotImplemented ex_heap = (Return VNotImplemented, ex_heap) ∧
  Matrix_times 2 VNotImplemented ex_heap = (Raise TypeError, ex_heap) ∧
  Matrix_times 2 VNotImplemented ex_heap ≠ (Return VNotImplemented, ex_heap).
Proof. split_and!; [reflexivity..|discriminate]. Qed.
